(** * The JSON comparator of the stub model ([stub/model.go])

    A shallow embedding of [JsonString], its (de)serialisation hooks and the
    recursive comparator [jsonStringMatches] behind [Matches] and [Equals].

    Conventions.
    - A Go [interface{}] holding a decoded JSON document is the inductive
      [iface]; its constructors are the six dynamic types that
      [encoding/json] stores into an [interface{}].
    - A Go [map[string]interface{}] is an association list.  Go leaves the
      order of [range] over a map unspecified.  The function
      [jsonStringMatches] ranges a map in the order of its list, so a
      statement about all lists is a statement about all orders of the
      outermost map; the relation [Runs] lets every [range] of every map
      pick its order, and the lemmas on it carry the statements over to
      every run.
    - A run-time panic is an explicit result, [Panic]. *)

From Stdlib Require Import Strings.String Strings.Ascii Strings.Byte List Bool Arith Lia ZArith.
From Stdlib Require Import Permutation.
From Stdlib Require Import Floats.SpecFloat.
Import ListNotations.

Set Warnings "-register-all".
Local Open Scope string_scope.
Local Open Scope list_scope.

(** ** Results of Go code that may panic *)

Inductive result (A : Type) : Type :=
| Done (a : A)
| Panic.

Arguments Done {A} a.
Arguments Panic {A}.

Definition bind {A B : Type} (c : result A) (k : A -> result B) : result B :=
  match c with
  | Done a => k a
  | Panic => Panic
  end.

Notation "x <- c ;; k" := (bind c (fun x => k))
  (at level 61, c at next level, right associativity).

(** ** Dynamic values *)

(** Go's [float64]: IEEE-754 binary64, compared with [SFeqb]. *)
Definition float64 : Type := spec_float.

Unset Elimination Schemes.
Inductive iface : Type :=
| VNil                                      (* nil, from JSON null *)
| VBool (b : bool)                          (* bool *)
| VFloat64 (f : float64)                    (* float64 *)
| VString (s : string)                      (* string *)
| VSlice (items : list iface)               (* []interface{} *)
| VMap (m : list (string * iface)).         (* map[string]interface{} *)
Set Elimination Schemes.

Definition gomap : Type := list (string * iface).

(** [fmt.Sprintf("%T", v)] *)
Definition typeName (v : iface) : string :=
  match v with
  | VNil => "<nil>"
  | VBool _ => "bool"
  | VFloat64 _ => "float64"
  | VString _ => "string"
  | VSlice _ => "[]interface {}"
  | VMap _ => "map[string]interface {}"
  end.

(** [x == y] on two [interface{}] values: values of different dynamic types
    are unequal; values of one comparable type are compared; values of one
    type that is not comparable (slice, map) make the comparison panic. *)
Definition ifaceEq (x y : iface) : result bool :=
  match x, y with
  | VNil, VNil => Done true
  | VBool a, VBool b => Done (Bool.eqb a b)
  | VFloat64 a, VFloat64 b => Done (SFeqb a b)
  | VString a, VString b => Done (String.eqb a b)
  | VSlice _, VSlice _ => Panic
  | VMap _, VMap _ => Panic
  | _, _ => Done false
  end.

(** [x != y] *)
Definition ifaceNe (x y : iface) : result bool :=
  eq <- ifaceEq x y ;; Done (negb eq).

(** [v, found := m[key]] *)
Fixpoint mapLookup (key : string) (m : gomap) : option iface :=
  match m with
  | [] => None
  | (k, v) :: rest => if String.eqb key k then Some v else mapLookup key rest
  end.

(** [len(m)] *)
Definition len {A : Type} (l : list A) : nat := List.length l.

(** The keys of a map, in range order. *)
Definition keys (m : gomap) : list string := List.map fst m.

(** ** The comparator *)

(** [jsonStringMatches] recurses on maps found inside the values of its first
    argument.  The structural recursion therefore runs on the interface value
    that holds the map: [compareHeld v otherJsonMap mustBeEqual] is
    [jsonStringMatches(v.(map[string]interface{}), otherJsonMap, mustBeEqual)].

    The three local loops are, from the outside in: [rangeMap], the
    [for key, value := range jsonMap] loop; [rangeItems], the
    [for _, item := range items] loop; [rangeOther], the
    [for _, otherItem := range otherItems] loop, which carries [found]. *)
Fixpoint compareHeld (held : iface) (otherJsonMap : gomap) (mustBeEqual : bool)
  {struct held} : result bool :=
  match held with
  | VMap jsonMap =>
    if mustBeEqual && negb (len jsonMap =? len otherJsonMap)%nat then Done false
    else
      (fix rangeMap (entries : gomap) : result bool :=
         match entries with
         | [] => Done true
         | (key, value) :: rest =>
           match mapLookup key otherJsonMap with
           | None => Done false
           | Some otherValue =>
             let valueType := typeName value in
             let otherValueType := typeName otherValue in
             if negb (valueType =? otherValueType) then Done false
             else
               let afterSwitch :=
                 ne <- ifaceNe value otherValue ;;
                 if ne then Done false else rangeMap rest in
               if valueType =? "map[string]interface {}" then
                 match value, otherValue with
                 | VMap _, VMap otherMap =>
                   sub <- compareHeld value otherMap mustBeEqual ;;
                   if negb sub then Done false else afterSwitch
                 | _, _ => Panic
                 end
               else if valueType =? "[]interface {}" then
                 match value, otherValue with
                 | VSlice items, VSlice otherItems =>
                   if negb (len items =? len otherItems)%nat then Done false
                   else
                     all <-
                       (fix rangeItems (its : list iface) : result bool :=
                          match its with
                          | [] => Done true
                          | item :: its' =>
                            found <-
                              (fix rangeOther (others : list iface) (found : bool)
                                 : result bool :=
                                 match others with
                                 | [] => Done found
                                 | otherItem :: others' =>
                                   let itemType := typeName item in
                                   let otherItemType := typeName otherItem in
                                   if negb (itemType =? otherItemType)
                                   then rangeOther others' found
                                   else if itemType =? "map[string]interface {}" then
                                     match item, otherItem with
                                     | VMap _, VMap otherItemMap =>
                                       sub <- compareHeld item otherItemMap mustBeEqual ;;
                                       rangeOther others' (if sub then true else found)
                                     | _, _ => Panic
                                     end
                                   else
                                     eq <- ifaceEq item otherItem ;;
                                     rangeOther others' (if eq then true else found)
                                 end) otherItems false ;;
                            if negb found then Done false else rangeItems its'
                          end) items ;;
                     if all then rangeMap rest else Done false
                 | _, _ => Panic
                 end
               else afterSwitch
           end
         end) jsonMap
  | _ => Panic
  end.

Definition jsonStringMatches (jsonMap otherJsonMap : gomap) (mustBeEqual : bool)
  : result bool :=
  compareHeld (VMap jsonMap) otherJsonMap mustBeEqual.

(** ** The loops of [jsonStringMatches], one definition per loop

    The same code as the local fixpoints above, named, so that statements can
    speak about one field or one array element.  [jsonStringMatches_eq] below
    shows that they are the comparator. *)

(** One pass through the body of [for _, otherItem := range otherItems];
    the result is the value of [found] after the pass.  The [break]s of the
    source leave the [switch], not the loop. *)
Definition otherItemStep (mustBeEqual : bool) (item otherItem : iface)
  (found : bool) : result bool :=
  let itemType := typeName item in
  let otherItemType := typeName otherItem in
  if negb (itemType =? otherItemType) then Done found
  else if itemType =? "map[string]interface {}" then
    match item, otherItem with
    | VMap itemMap, VMap otherItemMap =>
      sub <- jsonStringMatches itemMap otherItemMap mustBeEqual ;;
      Done (if sub then true else found)
    | _, _ => Panic
    end
  else
    eq <- ifaceEq item otherItem ;;
    Done (if eq then true else found).

(** [for _, otherItem := range otherItems { ... }], started with [found]. *)
Fixpoint rangeOther (mustBeEqual : bool) (item : iface) (others : list iface)
  (found : bool) : result bool :=
  match others with
  | [] => Done found
  | otherItem :: others' =>
    found' <- otherItemStep mustBeEqual item otherItem found ;;
    rangeOther mustBeEqual item others' found'
  end.

(** [for _, item := range items { ... }]: [Done true] when the loop runs to
    its end, [Done false] when it leaves through [return false]. *)
Fixpoint rangeItems (mustBeEqual : bool) (items otherItems : list iface)
  : result bool :=
  match items with
  | [] => Done true
  | item :: items' =>
    found <- rangeOther mustBeEqual item otherItems false ;;
    if negb found then Done false else rangeItems mustBeEqual items' otherItems
  end.

(** The body of [for key, value := range jsonMap]: [Done true] when the body
    reaches its end or [continue], [Done false] when it leaves through
    [return false]. *)
Definition fieldStep (mustBeEqual : bool) (otherJsonMap : gomap)
  (key : string) (value : iface) : result bool :=
  match mapLookup key otherJsonMap with
  | None => Done false
  | Some otherValue =>
    let valueType := typeName value in
    let otherValueType := typeName otherValue in
    if negb (valueType =? otherValueType) then Done false
    else
      let afterSwitch := ne <- ifaceNe value otherValue ;; Done (negb ne) in
      if valueType =? "map[string]interface {}" then
        match value, otherValue with
        | VMap valueMap, VMap otherMap =>
          sub <- jsonStringMatches valueMap otherMap mustBeEqual ;;
          if negb sub then Done false else afterSwitch
        | _, _ => Panic
        end
      else if valueType =? "[]interface {}" then
        match value, otherValue with
        | VSlice items, VSlice otherItems =>
          if negb (len items =? len otherItems)%nat then Done false
          else rangeItems mustBeEqual items otherItems
        | _, _ => Panic
        end
      else afterSwitch
  end.

(** [for key, value := range jsonMap { ... }; return true] *)
Fixpoint rangeMap (mustBeEqual : bool) (otherJsonMap : gomap) (entries : gomap)
  : result bool :=
  match entries with
  | [] => Done true
  | (key, value) :: rest =>
    ok <- fieldStep mustBeEqual otherJsonMap key value ;;
    if ok then rangeMap mustBeEqual otherJsonMap rest else Done false
  end.

(** The field-count gate of strict mode. *)
Definition countGate (mustBeEqual : bool) (jsonMap otherJsonMap : gomap) : bool :=
  mustBeEqual && negb (len jsonMap =? len otherJsonMap)%nat.

(** ** [JsonString] and its methods *)

Definition JsonString : Type := string.

(** Go's [[]byte] and the conversions [[]byte(s)] and [string(b)]. *)
Definition bytes : Type := list byte.
Definition bytesOf (s : string) : bytes := list_byte_of_string s.
Definition stringOf (b : bytes) : string := string_of_list_byte b.

(** A Go [error] value, by its message; [None] is the nil error. *)
Definition error : Type := string.

(** [func (j *JsonString) MarshalJSON() ([]byte, error)] *)
Definition MarshalJSON (j : JsonString) : bytes * option error :=
  let val := j in
  if val =? "" then (bytesOf "{}", None)
  else (bytesOf val, None).

Section Codec.

(** [encoding/json] is a library of the Go distribution and is taken as a
    parameter.

    [json_Compact data] is [json.Compact(buffer, data)] on a new buffer:
    the text of the buffer afterwards, and the error.

    [json_Unmarshal data] is [json.Unmarshal(data, m)] for [m] a pointer to
    a new (nil) [map[string]interface{}]: the map afterwards, and the
    error.  A nil map has no entries. *)
Variable json_Compact : bytes -> string * option error.
Variable json_Unmarshal : bytes -> gomap * option error.

(** [func (j *JsonString) UnmarshalJSON(data []byte) error]: the new value
    of [*j], the lines written by [log.Errorf], and the error returned. *)
Definition UnmarshalJSON (data : bytes) : JsonString * list string * option error :=
  let (buffer, err) := json_Compact data in
  let logged :=
    match err with
    | Some _ => [("error compacting json: " ++ stringOf data)%string]
    | None => []
    end in
  let result := buffer in
  (result, logged, None).

(** The map that [Matches] and [Equals] hand to the comparator for a text:
    the error of [json.Unmarshal] is dropped. *)
Definition decoded (j : JsonString) : gomap := fst (json_Unmarshal (bytesOf j)).

(** [func (j *JsonString) Matches(other JsonString) bool] *)
Definition Matches (j other : JsonString) : result bool :=
  let jsonMap := decoded j in
  let otherJsonMap := decoded other in
  jsonStringMatches jsonMap otherJsonMap false.

(** [func (j *JsonString) Equals(other JsonString) bool] *)
Definition Equals (j other : JsonString) : result bool :=
  let jsonMap := decoded j in
  let otherJsonMap := decoded other in
  jsonStringMatches jsonMap otherJsonMap true.

End Codec.

(** ** Sample documents

    Used to run the definitions on concrete inputs. *)

(** The double quote character. *)
Definition dquote : string := String (ascii_of_nat 34) EmptyString.

(** A JSON string literal (for texts without escapes). *)
Definition quoted (s : string) : string := (dquote ++ s ++ dquote)%string.

(** The [float64] of an integer. *)
Definition float64OfZ (n : Z) : float64 := binary_normalize 53 1024 n 0 false.

Definition num (n : Z) : iface := VFloat64 (float64OfZ n).

(** A decoder given by a table of documents: a text of the table decodes to
    its map without error; any other text is rejected and leaves the map nil,
    which is what [json.Unmarshal] does with a text that is not valid JSON. *)
Fixpoint tableUnmarshal (table : list (string * gomap)) (data : bytes)
  : gomap * option error :=
  match table with
  | [] =>
    match data with
    | [] => ([], Some "unexpected end of JSON input")
    | _ => ([], Some "invalid character looking for beginning of value")
    end
  | (text, m) :: table' =>
    if stringOf data =? text then (m, None) else tableUnmarshal table' data
  end.

(** A compactor that accepts every text unchanged except the empty one. *)
Definition sampleCompact (data : bytes) : string * option error :=
  match data with
  | [] => ("", Some "unexpected end of JSON input")
  | _ => (stringOf data, None)
  end.

(** The text [{"key":body}]. *)
Definition docField (key body : string) : string :=
  ("{" ++ quoted key ++ ":" ++ body ++ "}")%string.

(** The documents of the examples, each with the map [encoding/json] decodes
    it to. *)
Definition sampleDocs : list (string * gomap) :=
  [ ("{}", []);
    (docField "id" "5", [("id", num 5)]);
    (docField "k" "{}", [("k", VMap [])]);
    (docField "k" "[1,1]", [("k", VSlice [num 1; num 1])]);
    (docField "k" "[1,2]", [("k", VSlice [num 1; num 2])]);
    (docField "x" "null", [("x", VNil)]) ].

Definition sampleUnmarshal : bytes -> gomap * option error :=
  tableUnmarshal sampleDocs.

(** ** Documents on which the comparator cannot panic

    The comparator panics where it compares two maps or two slices with
    [==] or [!=]: after a nested object has matched, and on an array inside
    an array.  A pattern is plain when it has neither: no field holds a map,
    no array holds an array, and the maps held by arrays are plain. *)
Fixpoint plainItem (item : iface) : bool :=
  match item with
  | VSlice _ => false
  | VMap m =>
    forallb (fun entry =>
               match snd entry with
               | VMap _ => false
               | VSlice items => forallb plainItem items
               | _ => true
               end) m
  | _ => true
  end.

Definition plainField (value : iface) : bool :=
  match value with
  | VMap _ => false
  | VSlice items => forallb plainItem items
  | _ => true
  end.

Definition plainMap (m : gomap) : bool :=
  forallb (fun entry => plainField (snd entry)) m.

(** ** Induction on values

    The induction principle for [iface], with the hypotheses for the
    elements of a slice and for the values of a map. *)
Section IfaceInduction.

Variable P : iface -> Prop.
Hypothesis P_nil : P VNil.
Hypothesis P_bool : forall b, P (VBool b).
Hypothesis P_float64 : forall f, P (VFloat64 f).
Hypothesis P_string : forall s, P (VString s).
Hypothesis P_slice : forall items, Forall P items -> P (VSlice items).
Hypothesis P_map : forall m, Forall (fun entry => P (snd entry)) m -> P (VMap m).

Fixpoint iface_ind (v : iface) : P v :=
  match v with
  | VNil => P_nil
  | VBool b => P_bool b
  | VFloat64 f => P_float64 f
  | VString s => P_string s
  | VSlice items =>
    P_slice items
      ((fix each (l : list iface) : Forall P l :=
          match l with
          | [] => Forall_nil P
          | x :: l' => Forall_cons x (iface_ind x) (each l')
          end) items)
  | VMap m =>
    P_map m
      ((fix each (l : gomap) : Forall (fun entry => P (snd entry)) l :=
          match l with
          | [] => Forall_nil _
          | entry :: l' => Forall_cons entry (iface_ind (snd entry)) (each l')
          end) m)
  end.

End IfaceInduction.

(** ** Values that [encoding/json] can produce

    A decoded number is not a NaN, and a decoded object has each key once. *)
Fixpoint distinct (l : list string) : bool :=
  match l with
  | [] => true
  | k :: l' => negb (existsb (String.eqb k) l') && distinct l'
  end.

Definition isNaN (f : float64) : bool :=
  match f with
  | S754_nan => true
  | _ => false
  end.

Fixpoint wellFormed (v : iface) : bool :=
  match v with
  | VNil | VBool _ | VString _ => true
  | VFloat64 f => negb (isNaN f)
  | VSlice items => forallb wellFormed items
  | VMap m =>
    distinct (List.map fst m) && forallb (fun entry => wellFormed (snd entry)) m
  end.

(** ** Every order of [range]

    [jsonStringMatches] above ranges a map in the order of its list.  Go
    picks the order anew each time a map is ranged, also when one map is
    ranged several times in one call (an element of an array is ranged once
    for every element of the other array).  [Runs mustBeEqual jsonMap
    otherJsonMap r] says that [r] is a result of
    [jsonStringMatches(jsonMap, otherJsonMap, mustBeEqual)] for some choice
    of these orders.  The relations follow the functions of the loops:
    [RunsMap] is [rangeMap] on the chosen order, [RunsField] is [fieldStep],
    [RunsItems] is [rangeItems], [RunsOther] is [rangeOther] and [RunsStep]
    is [otherItemStep]. *)
Inductive Runs : bool -> gomap -> gomap -> result bool -> Prop :=
| Runs_gate : forall mustBeEqual jsonMap otherJsonMap,
    countGate mustBeEqual jsonMap otherJsonMap = true ->
    Runs mustBeEqual jsonMap otherJsonMap (Done false)
| Runs_range : forall mustBeEqual jsonMap otherJsonMap order r,
    countGate mustBeEqual jsonMap otherJsonMap = false ->
    Permutation jsonMap order ->
    RunsMap mustBeEqual otherJsonMap order r ->
    Runs mustBeEqual jsonMap otherJsonMap r

with RunsMap : bool -> gomap -> gomap -> result bool -> Prop :=
| RunsMap_end : forall mustBeEqual otherJsonMap,
    RunsMap mustBeEqual otherJsonMap [] (Done true)
| RunsMap_next : forall mustBeEqual otherJsonMap key value rest r,
    RunsField mustBeEqual otherJsonMap key value (Done true) ->
    RunsMap mustBeEqual otherJsonMap rest r ->
    RunsMap mustBeEqual otherJsonMap ((key, value) :: rest) r
| RunsMap_stop : forall mustBeEqual otherJsonMap key value rest s,
    RunsField mustBeEqual otherJsonMap key value s ->
    s <> Done true ->
    RunsMap mustBeEqual otherJsonMap ((key, value) :: rest) s

with RunsField : bool -> gomap -> string -> iface -> result bool -> Prop :=
| RunsField_absent : forall mustBeEqual otherJsonMap key value,
    mapLookup key otherJsonMap = None ->
    RunsField mustBeEqual otherJsonMap key value (Done false)
| RunsField_type : forall mustBeEqual otherJsonMap key value otherValue,
    mapLookup key otherJsonMap = Some otherValue ->
    (typeName value =? typeName otherValue) = false ->
    RunsField mustBeEqual otherJsonMap key value (Done false)
| RunsField_map : forall mustBeEqual otherJsonMap key valueMap otherMap r,
    mapLookup key otherJsonMap = Some (VMap otherMap) ->
    Runs mustBeEqual valueMap otherMap r ->
    RunsField mustBeEqual otherJsonMap key (VMap valueMap)
      (sub <- r ;;
       if negb sub then Done false
       else ne <- ifaceNe (VMap valueMap) (VMap otherMap) ;; Done (negb ne))
| RunsField_length : forall mustBeEqual otherJsonMap key items otherItems,
    mapLookup key otherJsonMap = Some (VSlice otherItems) ->
    (len items =? len otherItems)%nat = false ->
    RunsField mustBeEqual otherJsonMap key (VSlice items) (Done false)
| RunsField_slice : forall mustBeEqual otherJsonMap key items otherItems r,
    mapLookup key otherJsonMap = Some (VSlice otherItems) ->
    (len items =? len otherItems)%nat = true ->
    RunsItems mustBeEqual items otherItems r ->
    RunsField mustBeEqual otherJsonMap key (VSlice items) r
| RunsField_other : forall mustBeEqual otherJsonMap key value otherValue,
    mapLookup key otherJsonMap = Some otherValue ->
    (typeName value =? typeName otherValue) = true ->
    (typeName value =? "map[string]interface {}") = false ->
    (typeName value =? "[]interface {}") = false ->
    RunsField mustBeEqual otherJsonMap key value
      (ne <- ifaceNe value otherValue ;; Done (negb ne))

with RunsItems : bool -> list iface -> list iface -> result bool -> Prop :=
| RunsItems_end : forall mustBeEqual otherItems,
    RunsItems mustBeEqual [] otherItems (Done true)
| RunsItems_next : forall mustBeEqual item items otherItems r,
    RunsOther mustBeEqual item otherItems false (Done true) ->
    RunsItems mustBeEqual items otherItems r ->
    RunsItems mustBeEqual (item :: items) otherItems r
| RunsItems_stop : forall mustBeEqual item items otherItems s,
    RunsOther mustBeEqual item otherItems false s ->
    s <> Done true ->
    RunsItems mustBeEqual (item :: items) otherItems s

with RunsOther : bool -> iface -> list iface -> bool -> result bool -> Prop :=
| RunsOther_end : forall mustBeEqual item found,
    RunsOther mustBeEqual item [] found (Done found)
| RunsOther_next : forall mustBeEqual item otherItem others found found' r,
    RunsStep mustBeEqual item otherItem found (Done found') ->
    RunsOther mustBeEqual item others found' r ->
    RunsOther mustBeEqual item (otherItem :: others) found r
| RunsOther_panic : forall mustBeEqual item otherItem others found,
    RunsStep mustBeEqual item otherItem found Panic ->
    RunsOther mustBeEqual item (otherItem :: others) found Panic

with RunsStep : bool -> iface -> iface -> bool -> result bool -> Prop :=
| RunsStep_type : forall mustBeEqual item otherItem found,
    (typeName item =? typeName otherItem) = false ->
    RunsStep mustBeEqual item otherItem found (Done found)
| RunsStep_map : forall mustBeEqual itemMap otherItemMap found r,
    Runs mustBeEqual itemMap otherItemMap r ->
    RunsStep mustBeEqual (VMap itemMap) (VMap otherItemMap) found
      (sub <- r ;; Done (if sub then true else found))
| RunsStep_other : forall mustBeEqual item otherItem found,
    (typeName item =? typeName otherItem) = true ->
    (typeName item =? "map[string]interface {}") = false ->
    RunsStep mustBeEqual item otherItem found
      (eq <- ifaceEq item otherItem ;; Done (if eq then true else found)).

Scheme Runs_min := Minimality for Runs Sort Prop
  with RunsMap_min := Minimality for RunsMap Sort Prop
  with RunsField_min := Minimality for RunsField Sort Prop
  with RunsItems_min := Minimality for RunsItems Sort Prop
  with RunsOther_min := Minimality for RunsOther Sort Prop
  with RunsStep_min := Minimality for RunsStep Sort Prop.

Combined Scheme Runs_mutual from
  Runs_min, RunsMap_min, RunsField_min, RunsItems_min, RunsOther_min,
  RunsStep_min.

(** ** The loops are the comparator *)

Lemma rangeOther_eq (mustBeEqual : bool) (item : iface) :
  forall others found,
    (fix rangeOther (others : list iface) (found : bool) : result bool :=
       match others with
       | [] => Done found
       | otherItem :: others' =>
         let itemType := typeName item in
         let otherItemType := typeName otherItem in
         if negb (itemType =? otherItemType)
         then rangeOther others' found
         else if itemType =? "map[string]interface {}" then
           match item, otherItem with
           | VMap _, VMap otherItemMap =>
             sub <- compareHeld item otherItemMap mustBeEqual ;;
             rangeOther others' (if sub then true else found)
           | _, _ => Panic
           end
         else
           eq <- ifaceEq item otherItem ;;
           rangeOther others' (if eq then true else found)
       end) others found
    = rangeOther mustBeEqual item others found.
Proof.
  destruct item;
    (induction others as [|otherItem others' IH]; intros found; [reflexivity|]);
    destruct otherItem; cbn -[compareHeld]; try apply IH; try reflexivity.
  all: unfold jsonStringMatches;
    match goal with
    | |- context [bind ?c _] => destruct c as [r|]
    end; cbn -[compareHeld]; try apply IH; reflexivity.
Qed.

Lemma compareHeld_VMap (mustBeEqual : bool) (jsonMap otherJsonMap : gomap) :
  compareHeld (VMap jsonMap) otherJsonMap mustBeEqual
  = if countGate mustBeEqual jsonMap otherJsonMap then Done false
    else rangeMap mustBeEqual otherJsonMap jsonMap.
Proof.
  unfold countGate. cbn -[Nat.eqb mapLookup].
  destruct (mustBeEqual && negb (len jsonMap =? len otherJsonMap)%nat);
    [reflexivity|].
  induction jsonMap as [|[key value] rest IH]; [reflexivity|].
  cbn [rangeMap]. unfold fieldStep.
  destruct (mapLookup key otherJsonMap) as [otherValue|]; [|reflexivity].
  destruct value, otherValue;
    cbn -[compareHeld mapLookup Nat.eqb len rangeMap rangeItems];
    try reflexivity.
  - exact IH.
  - destruct (eqb b b0); cbn; [exact IH | reflexivity].
  - destruct (SFeqb f f0); cbn; [exact IH | reflexivity].
  - destruct (s =? s0); cbn; [exact IH | reflexivity].
  - destruct (negb (len items =? len items0)%nat); [reflexivity|].
    match goal with
    | |- bind (?G items) _ = _ =>
      assert (HG : forall its, G its = rangeItems mustBeEqual its items0)
    end.
    { induction its as [|item its' IHits]; [reflexivity|].
      cbn [rangeItems]. rewrite <- IHits, <- rangeOther_eq. reflexivity. }
    rewrite HG.
    destruct (rangeItems mustBeEqual items items0) as [[|]|]; cbn [bind];
      [exact IH | reflexivity | reflexivity].
  - unfold jsonStringMatches.
    destruct (compareHeld (VMap m) m0 mustBeEqual) as [[|]|]; reflexivity.
Qed.

Lemma jsonStringMatches_eq (jsonMap otherJsonMap : gomap) (mustBeEqual : bool) :
  jsonStringMatches jsonMap otherJsonMap mustBeEqual
  = if countGate mustBeEqual jsonMap otherJsonMap then Done false
    else rangeMap mustBeEqual otherJsonMap jsonMap.
Proof. apply compareHeld_VMap. Qed.

(** From here on the comparator is used through [jsonStringMatches_eq]. *)
Arguments compareHeld : simpl never.
Arguments jsonStringMatches : simpl never.


(** ** Basic facts about the loops *)

Lemma bind_Done_inv {A B : Type} (c : result A) (k : A -> result B) (b : B) :
  bind c k = Done b -> exists a, c = Done a /\ k a = Done b.
Proof. destruct c as [a|]; cbn; [eauto | discriminate]. Qed.

(** The loop over the fields returns [true] exactly when every field passes. *)
Lemma rangeMap_true (mustBeEqual : bool) (otherJsonMap entries : gomap) :
  rangeMap mustBeEqual otherJsonMap entries = Done true
  <-> Forall (fun e => fieldStep mustBeEqual otherJsonMap (fst e) (snd e) = Done true)
        entries.
Proof.
  induction entries as [|[key value] rest IH]; cbn [rangeMap].
  - split; [constructor | reflexivity].
  - split.
    + intros H. apply bind_Done_inv in H as [[|] [Hstep Hrest]];
        [|discriminate].
      constructor; [exact Hstep | apply IH, Hrest].
    + intros H. inversion H as [|e l Hstep Hrest]; subst. cbn [fst snd] in Hstep.
      rewrite Hstep. cbn [bind]. apply IH, Hrest.
Qed.

(** Running the loop over [pre ++ post] is running it over [pre] and, when
    every field of [pre] passes, over [post]. *)
Lemma rangeMap_app (mustBeEqual : bool) (otherJsonMap pre post : gomap) :
  rangeMap mustBeEqual otherJsonMap (pre ++ post)
  = ok <- rangeMap mustBeEqual otherJsonMap pre ;;
    if ok then rangeMap mustBeEqual otherJsonMap post else Done false.
Proof.
  induction pre as [|[key value] rest IH]; [reflexivity|].
  cbn [app rangeMap].
  destruct (fieldStep mustBeEqual otherJsonMap key value) as [[|]|];
    cbn [bind]; [exact IH | reflexivity | reflexivity].
Qed.

(** A field holding a map never passes: the comparison after the [switch]
    panics when the recursive call succeeds. *)
Lemma fieldStep_VMap_not_true (mustBeEqual : bool) (otherJsonMap : gomap)
  (key : string) (m : gomap) :
  fieldStep mustBeEqual otherJsonMap key (VMap m) <> Done true.
Proof.
  unfold fieldStep.
  destruct (mapLookup key otherJsonMap) as [[| | | | |m']|]; cbn;
    try discriminate.
  destruct (jsonStringMatches m m' mustBeEqual) as [[|]|]; cbn; discriminate.
Qed.

Lemma fieldStep_VMap_panics (mustBeEqual : bool) (otherJsonMap : gomap)
  (key : string) (m m' : gomap) :
  mapLookup key otherJsonMap = Some (VMap m') ->
  jsonStringMatches m m' mustBeEqual = Done true ->
  fieldStep mustBeEqual otherJsonMap key (VMap m) = Panic.
Proof.
  intros Hfound Hsub. unfold fieldStep. rewrite Hfound. cbn.
  rewrite Hsub. reflexivity.
Qed.

(** A pattern with a field that holds a map never gets the verdict [true]. *)
Lemma nested_object_never_true (mustBeEqual : bool) (jsonMap otherJsonMap : gomap)
  (key : string) (m : gomap) :
  In (key, VMap m) jsonMap ->
  jsonStringMatches jsonMap otherJsonMap mustBeEqual <> Done true.
Proof.
  intros Hin Htrue. rewrite jsonStringMatches_eq in Htrue.
  destruct (countGate mustBeEqual jsonMap otherJsonMap); [discriminate|].
  apply rangeMap_true in Htrue. rewrite Forall_forall in Htrue.
  apply (fieldStep_VMap_not_true mustBeEqual otherJsonMap key m).
  exact (Htrue _ Hin).
Qed.

(** ** Lookups in a target that gains or changes one field *)

Lemma mapLookup_app (key : string) (before after : gomap) :
  mapLookup key (before ++ after)
  = match mapLookup key before with
    | Some v => Some v
    | None => mapLookup key after
    end.
Proof.
  induction before as [|[k v] rest IH]; [reflexivity|].
  cbn [app mapLookup]. destruct (key =? k); [reflexivity | exact IH].
Qed.

Lemma mapLookup_not_in (key : string) (m : gomap) :
  ~ In key (keys m) -> mapLookup key m = None.
Proof.
  induction m as [|[k v] rest IH]; [reflexivity|].
  cbn [keys map fst In mapLookup]. intros Hnot.
  destruct (String.eqb_spec key k) as [->|Hne].
  - exfalso. apply Hnot. left. reflexivity.
  - apply IH. intros Hin. apply Hnot. right. exact Hin.
Qed.

(** The field [key] of [before ++ (key, value) :: after]. *)
Lemma mapLookup_here (key : string) (value : iface) (before after : gomap) :
  ~ In key (keys before) ->
  mapLookup key (before ++ (key, value) :: after) = Some value.
Proof.
  intros Hnot. rewrite mapLookup_app, (mapLookup_not_in _ _ Hnot).
  cbn [mapLookup]. rewrite String.eqb_refl. reflexivity.
Qed.

(** Any other field of [before ++ (key, value) :: after]. *)
Lemma mapLookup_elsewhere (key key' : string) (value : iface)
  (before after : gomap) :
  key' <> key ->
  mapLookup key' (before ++ (key, value) :: after)
  = mapLookup key' (before ++ after).
Proof.
  intros Hne. rewrite !mapLookup_app. cbn [mapLookup].
  destruct (String.eqb_spec key' key) as [Heq|_]; [contradiction | reflexivity].
Qed.

(** A field step reads the target through the lookup of its key only. *)
Lemma fieldStep_ext (mustBeEqual : bool) (t t' : gomap) (key : string)
  (value : iface) :
  mapLookup key t = mapLookup key t' ->
  fieldStep mustBeEqual t key value = fieldStep mustBeEqual t' key value.
Proof. intros Hsame. unfold fieldStep. rewrite Hsame. reflexivity. Qed.

Lemma rangeMap_ext (mustBeEqual : bool) (t t' entries : gomap) :
  (forall key, In key (keys entries) -> mapLookup key t = mapLookup key t') ->
  rangeMap mustBeEqual t entries = rangeMap mustBeEqual t' entries.
Proof.
  induction entries as [|[key value] rest IH]; [reflexivity|].
  intros Hsame. cbn [rangeMap].
  rewrite (fieldStep_ext mustBeEqual t t' key value)
    by (apply Hsame; left; reflexivity).
  rewrite IH by (intros k Hk; apply Hsame; right; exact Hk).
  reflexivity.
Qed.

Lemma len_app_cons {A : Type} (before after : list A) (x : A) :
  len (before ++ x :: after) = S (len (before ++ after)).
Proof. unfold len. rewrite !length_app. cbn [length]. lia. Qed.

(** ** Plain patterns: where a verdict [true] comes from *)

Lemma plainItem_VMap (m : gomap) : plainItem (VMap m) = plainMap m.
Proof. reflexivity. Qed.

(** What one pass of the inner loop can do to [found]. *)
Lemma otherItemStep_cases (mustBeEqual : bool) (item otherItem : iface)
  (found : bool) :
  otherItemStep mustBeEqual item otherItem found
  = hit <- otherItemStep mustBeEqual item otherItem false ;;
    Done (hit || found).
Proof.
  unfold otherItemStep.
  destruct (negb (typeName item =? typeName otherItem)); [reflexivity|].
  destruct (typeName item =? "map[string]interface {}").
  - destruct item; try reflexivity. destruct otherItem; try reflexivity.
    destruct (jsonStringMatches m m0 mustBeEqual) as [[|]|]; reflexivity.
  - destruct (ifaceEq item otherItem) as [[|]|]; reflexivity.
Qed.

(** When the inner loop ends with [found] set, it was set before the loop or
    by a pass of it. *)
Lemma rangeOther_true_inv (mustBeEqual : bool) (item : iface) :
  forall others found,
    rangeOther mustBeEqual item others found = Done true ->
    found = true
    \/ exists otherItem,
        In otherItem others
        /\ otherItemStep mustBeEqual item otherItem false = Done true.
Proof.
  induction others as [|otherItem others' IH]; intros found Hrun;
    cbn [rangeOther] in Hrun.
  - left. congruence.
  - rewrite otherItemStep_cases in Hrun.
    destruct (otherItemStep mustBeEqual item otherItem false) as [hit|] eqn:Hstep;
      [|discriminate].
    cbn [bind] in Hrun. apply IH in Hrun as [Hset|(o & Hin & Ho)].
    + destruct hit; [|left; exact Hset].
      right. exists otherItem. split; [left; reflexivity | exact Hstep].
    + right. exists o. split; [right; exact Hin | exact Ho].
Qed.

(** A pass of the inner loop that sets [found] for a slice does not exist,
    and for a map it is a successful recursive call. *)
Lemma otherItemStep_true_inv (mustBeEqual : bool) (item otherItem : iface) :
  otherItemStep mustBeEqual item otherItem false = Done true ->
  match item with
  | VSlice _ => False
  | VMap m =>
    exists m', otherItem = VMap m'
               /\ jsonStringMatches m m' mustBeEqual = Done true
  | _ => True
  end.
Proof.
  unfold otherItemStep.
  destruct item, otherItem; cbn; try discriminate; try (intros _; exact I).
  destruct (jsonStringMatches m m0 mustBeEqual) as [[|]|] eqn:Hsub; cbn;
    try discriminate.
  intros _. exists m0. split; [reflexivity | exact Hsub].
Qed.

(** The loop over the pattern's array returns [true] exactly when every
    element is found. *)
Lemma rangeItems_true (mustBeEqual : bool) (items otherItems : list iface) :
  rangeItems mustBeEqual items otherItems = Done true
  <-> Forall (fun item => rangeOther mustBeEqual item otherItems false = Done true)
        items.
Proof.
  induction items as [|item items' IH]; cbn [rangeItems].
  - split; [constructor | reflexivity].
  - split.
    + intros H. apply bind_Done_inv in H as [[|] [Hfound Hrest]];
        [|discriminate].
      constructor; [exact Hfound | apply IH, Hrest].
    + intros H. inversion H as [|x l Hfound Hrest]; subst.
      rewrite Hfound. cbn [bind negb]. apply IH, Hrest.
Qed.

(** A field that passes is not a map; when it is a slice, the array loop
    returned [true]. *)
Lemma fieldStep_true_inv (mustBeEqual : bool) (otherJsonMap : gomap)
  (key : string) (value : iface) :
  fieldStep mustBeEqual otherJsonMap key value = Done true ->
  match value with
  | VMap _ => False
  | VSlice items =>
    exists otherItems,
      mapLookup key otherJsonMap = Some (VSlice otherItems)
      /\ len items = len otherItems
      /\ rangeItems mustBeEqual items otherItems = Done true
  | _ => True
  end.
Proof.
  intros Hstep. destruct value as [| | | |items|m]; try exact I.
  - unfold fieldStep in Hstep.
    destruct (mapLookup key otherJsonMap) as [[| | | |otherItems|]|];
      cbn -[Nat.eqb] in Hstep; try discriminate Hstep.
    destruct (len items =? len otherItems)%nat eqn:Hlen;
      cbn [negb] in Hstep; [|discriminate Hstep].
    exists otherItems. split; [reflexivity|].
    split; [apply Nat.eqb_eq, Hlen | exact Hstep].
  - exact (fieldStep_VMap_not_true _ _ _ _ Hstep).
Qed.

(** The field step on a slice, once the target's field is known. *)
Lemma fieldStep_slice (mustBeEqual : bool) (otherJsonMap : gomap) (key : string)
  (items otherItems : list iface) :
  mapLookup key otherJsonMap = Some (VSlice otherItems) ->
  fieldStep mustBeEqual otherJsonMap key (VSlice items)
  = if negb (len items =? len otherItems)%nat then Done false
    else rangeItems mustBeEqual items otherItems.
Proof. intros Hfound. unfold fieldStep. rewrite Hfound. reflexivity. Qed.

(** A verdict [true] is only reached on plain patterns: for a map, by the
    comparator; for a slice, by the array loop. *)
Lemma true_only_on_plain (v : iface) :
  match v with
  | VMap m =>
    forall t mustBeEqual,
      jsonStringMatches m t mustBeEqual = Done true -> plainMap m = true
  | VSlice items =>
    forall otherItems mustBeEqual,
      rangeItems mustBeEqual items otherItems = Done true ->
      forallb plainItem items = true
  | _ => True
  end.
Proof.
  induction v as [| | | |items IH|m IH] using iface_ind; try exact I.
  - intros otherItems mustBeEqual Hrun.
    apply rangeItems_true in Hrun. rewrite Forall_forall in Hrun, IH.
    apply forallb_forall. intros item Hin.
    specialize (Hrun item Hin). specialize (IH item Hin).
    apply rangeOther_true_inv in Hrun as [Hset|(o & _ & Hstep)];
      [discriminate Hset|].
    apply otherItemStep_true_inv in Hstep.
    destruct item as [| | | |its|im]; try reflexivity; [contradiction|].
    destruct Hstep as (m' & _ & Hsub). exact (IH _ _ Hsub).
  - intros t mustBeEqual Hrun. rewrite jsonStringMatches_eq in Hrun.
    destruct (countGate mustBeEqual m t); [discriminate|].
    apply rangeMap_true in Hrun. rewrite Forall_forall in Hrun, IH.
    apply forallb_forall. intros [key value] Hin.
    specialize (Hrun _ Hin). specialize (IH _ Hin). cbn [fst snd] in *.
    apply fieldStep_true_inv in Hrun.
    destruct value as [| | | |its|vm]; try reflexivity; [|contradiction].
    destruct Hrun as (otherItems & _ & _ & Hits). exact (IH _ _ Hits).
Qed.

Lemma jsonStringMatches_true_plain (jsonMap otherJsonMap : gomap)
  (mustBeEqual : bool) :
  jsonStringMatches jsonMap otherJsonMap mustBeEqual = Done true ->
  plainMap jsonMap = true.
Proof. exact (true_only_on_plain (VMap jsonMap) otherJsonMap mustBeEqual). Qed.

Lemma rangeItems_true_plain (items otherItems : list iface) (mustBeEqual : bool) :
  rangeItems mustBeEqual items otherItems = Done true ->
  forallb plainItem items = true.
Proof. exact (true_only_on_plain (VSlice items) otherItems mustBeEqual). Qed.

(** The inner loop cannot panic on an item whose comparisons cannot. *)
Lemma rangeOther_returns (mustBeEqual : bool) (item : iface) :
  plainItem item = true ->
  (forall m, item = VMap m ->
             forall t, jsonStringMatches m t mustBeEqual <> Panic) ->
  forall others found,
    rangeOther mustBeEqual item others found <> Panic.
Proof.
  intros Hplain Hsub.
  induction others as [|otherItem others' IH]; intros found;
    cbn [rangeOther]; [discriminate|].
  destruct (otherItemStep mustBeEqual item otherItem found) as [found'|] eqn:Hstep;
    cbn [bind]; [apply IH|].
  exfalso. unfold otherItemStep in Hstep.
  destruct item as [| | | |its|m]; try discriminate Hplain;
    destruct otherItem as [| | | | |m']; cbn in Hstep; try discriminate Hstep.
  destruct (jsonStringMatches m m' mustBeEqual) as [sub|] eqn:Hrun;
    [discriminate Hstep|].
  exact (Hsub m eq_refl m' Hrun).
Qed.

(** On a plain pattern neither the comparator nor the array loop panics. *)
Lemma plain_returns (v : iface) :
  match v with
  | VMap m =>
    plainMap m = true ->
    forall t mustBeEqual, jsonStringMatches m t mustBeEqual <> Panic
  | VSlice items =>
    forallb plainItem items = true ->
    forall otherItems mustBeEqual,
      rangeItems mustBeEqual items otherItems <> Panic
  | _ => True
  end.
Proof.
  induction v as [| | | |items IH|m IH] using iface_ind; try exact I.
  - intros Hplain otherItems mustBeEqual.
    induction items as [|item items' IHitems]; cbn [rangeItems];
      [discriminate|].
    cbn [forallb] in Hplain. apply andb_prop in Hplain as [Hitem Hrest].
    inversion IH as [|x l Hx Hl]; subst.
    destruct (rangeOther mustBeEqual item otherItems false) as [[|]|] eqn:Hrun;
      cbn [bind negb].
    + apply IHitems; assumption.
    + discriminate.
    + exfalso. revert Hrun. apply rangeOther_returns; [exact Hitem|].
      intros im -> t. apply Hx. exact Hitem.
  - intros Hplain t mustBeEqual. rewrite jsonStringMatches_eq.
    destruct (countGate mustBeEqual m t); [discriminate|].
    induction m as [|[key value] rest IHrest]; cbn [rangeMap]; [discriminate|].
    cbn [plainMap forallb snd] in Hplain.
    apply andb_prop in Hplain as [Hvalue Hrest].
    inversion IH as [|x l Hx Hl]; subst. cbn [snd] in Hx.
    destruct (fieldStep mustBeEqual t key value) as [[|]|] eqn:Hstep;
      cbn [bind].
    + apply IHrest; assumption.
    + discriminate.
    + exfalso. unfold fieldStep in Hstep.
      destruct (mapLookup key t) as [otherValue|]; [|discriminate Hstep].
      destruct value as [| | | |its|vm]; try discriminate Hvalue;
        destruct otherValue as [| | | |otherItems|]; cbn -[Nat.eqb] in Hstep;
        try discriminate Hstep.
      destruct (negb (len its =? len otherItems)%nat); [discriminate Hstep|].
      exact (Hx Hvalue otherItems mustBeEqual Hstep).
Qed.

Lemma plainMap_returns (jsonMap otherJsonMap : gomap) (mustBeEqual : bool) :
  plainMap jsonMap = true ->
  jsonStringMatches jsonMap otherJsonMap mustBeEqual <> Panic.
Proof.
  intros Hplain. exact (plain_returns (VMap jsonMap) Hplain otherJsonMap mustBeEqual).
Qed.

(** The inner loop in loose mode finds what it finds in strict mode. *)
Lemma rangeOther_loose (item : iface) :
  plainItem item = true ->
  (forall m, item = VMap m ->
             forall t, jsonStringMatches m t true = Done true ->
                       jsonStringMatches m t false = Done true) ->
  forall others strictFound looseFound,
    (strictFound = true -> looseFound = true) ->
    rangeOther true item others strictFound = Done true ->
    rangeOther false item others looseFound = Done true.
Proof.
  intros Hplain Hloose.
  induction others as [|otherItem others' IH];
    intros strictFound looseFound Himp Hrun; cbn [rangeOther] in Hrun |- *.
  - injection Hrun as Hset. rewrite (Himp Hset). reflexivity.
  - apply bind_Done_inv in Hrun as (strictFound' & Hstep & Hrun).
    assert (Hstep' : exists looseFound',
               otherItemStep false item otherItem looseFound = Done looseFound'
               /\ (strictFound' = true -> looseFound' = true)).
    { unfold otherItemStep in Hstep |- *.
      destruct (negb (typeName item =? typeName otherItem)).
      - injection Hstep as <-. eauto.
      - destruct (typeName item =? "map[string]interface {}").
        + destruct item as [| | | | |m]; try discriminate Hstep.
          destruct otherItem as [| | | | |m']; try discriminate Hstep.
          destruct (jsonStringMatches m m' true) as [[|]|] eqn:Hstrict;
            cbn [bind] in Hstep; [| |discriminate Hstep];
            injection Hstep as <-.
          * rewrite (Hloose m eq_refl m' Hstrict). cbn [bind]. eauto.
          * destruct (jsonStringMatches m m' false) as [[|]|] eqn:Hrun';
              cbn [bind]; [eauto | eauto |].
            exfalso. exact (plainMap_returns m m' false Hplain Hrun').
        + destruct (ifaceEq item otherItem) as [eq|]; cbn [bind] in Hstep |- *;
            [|discriminate Hstep].
          injection Hstep as <-. eexists. split; [reflexivity|].
          destruct eq; [reflexivity | exact Himp]. }
    destruct Hstep' as (looseFound' & -> & Himp'). cbn [bind].
    exact (IH _ _ Himp' Hrun).
Qed.

(** Strict [true] implies loose [true], for the comparator on a map and for
    the array loop on a slice. *)
Lemma strict_true_loose_true (v : iface) :
  match v with
  | VMap m =>
    forall t, jsonStringMatches m t true = Done true ->
              jsonStringMatches m t false = Done true
  | VSlice items =>
    forall otherItems,
      rangeItems true items otherItems = Done true ->
      rangeItems false items otherItems = Done true
  | _ => True
  end.
Proof.
  induction v as [| | | |items IH|m IH] using iface_ind; try exact I.
  - intros otherItems Hstrict.
    pose proof (rangeItems_true_plain _ _ _ Hstrict) as Hplain.
    rewrite forallb_forall in Hplain.
    apply rangeItems_true in Hstrict. apply rangeItems_true.
    rewrite Forall_forall in Hstrict, IH |- *. intros item Hin.
    apply (rangeOther_loose item (Hplain item Hin)) with (strictFound := false);
      [|intros H; exact H|exact (Hstrict item Hin)].
    intros im ->. exact (IH _ Hin).
  - intros t Hstrict. rewrite jsonStringMatches_eq in Hstrict |- *.
    destruct (countGate true m t); [discriminate|]. cbn [countGate andb].
    apply rangeMap_true in Hstrict. apply rangeMap_true.
    rewrite Forall_forall in Hstrict, IH |- *. intros [key value] Hin.
    specialize (Hstrict _ Hin). specialize (IH _ Hin). cbn [fst snd] in *.
    pose proof (fieldStep_true_inv _ _ _ _ Hstrict) as Hinv.
    destruct value as [| | | |its|vm]; try exact Hstrict; [|contradiction].
    destruct Hinv as (otherItems & Hfound & Hlen & Hits).
    rewrite (fieldStep_slice _ _ _ _ _ Hfound).
    apply Nat.eqb_eq in Hlen. rewrite Hlen. cbn [negb]. exact (IH _ Hits).
Qed.

(** ** Where C4 and C7 hold: plain documents

    On well-formed plain documents strict mode is reflexive and arrays match
    in any order; the departures of C4, C7 and C9 need a nested object or an
    array inside an array. *)

Lemma SFeqb_refl (f : float64) : isNaN f = false -> SFeqb f f = true.
Proof.
  destruct f as [s|s| |s m e]; cbn; try reflexivity; try discriminate.
  - destruct s; reflexivity.
  - intros _. unfold SFeqb, SFcompare.
    destruct s; rewrite Z.compare_refl;
      change (Pos.compare_cont Eq m m) with (Pos.compare m m);
      rewrite Pos.compare_refl; reflexivity.
Qed.

(** [v == v] holds for a well-formed value that is neither slice nor map. *)
Lemma ifaceEq_refl (v : iface) :
  wellFormed v = true ->
  match v with
  | VSlice _ | VMap _ => True
  | _ => ifaceEq v v = Done true
  end.
Proof.
  destruct v as [|b|f|s|items|m]; cbn [ifaceEq wellFormed]; intros Hwf;
    try exact I; try reflexivity.
  - rewrite Bool.eqb_reflx. reflexivity.
  - rewrite SFeqb_refl; [reflexivity|]. destruct (isNaN f); [discriminate|reflexivity].
  - rewrite String.eqb_refl. reflexivity.
Qed.

Lemma distinct_lookup (m : gomap) (key : string) (value : iface) :
  distinct (keys m) = true ->
  In (key, value) m ->
  mapLookup key m = Some value.
Proof.
  induction m as [|[k v] rest IH]; [intros _ []|].
  cbn [keys map fst distinct mapLookup]. intros Hdistinct Hin.
  apply andb_prop in Hdistinct as [Hfresh Hrest].
  destruct Hin as [Heq|Hin].
  - injection Heq as -> ->. rewrite String.eqb_refl. reflexivity.
  - destruct (String.eqb_spec key k) as [->|Hne]; [|apply IH; assumption].
    exfalso. apply Bool.negb_true_iff in Hfresh.
    assert (Hex : existsb (String.eqb k) (map fst rest) = true).
    { apply existsb_exists. exists k. split; [|apply String.eqb_refl].
      apply in_map with (f := fst) in Hin. exact Hin. }
    congruence.
Qed.

(** The inner loop sets [found] by itself or keeps the value it started
    with. *)
Lemma rangeOther_or (mustBeEqual : bool) (item : iface) :
  forall others found,
    rangeOther mustBeEqual item others found
    = hit <- rangeOther mustBeEqual item others false ;; Done (hit || found).
Proof.
  induction others as [|otherItem others' IH]; intros found;
    cbn [rangeOther]; [reflexivity|].
  rewrite (otherItemStep_cases _ _ _ found).
  destruct (otherItemStep mustBeEqual item otherItem false) as [hit|];
    cbn [bind]; [|reflexivity].
  rewrite (IH (hit || found)), (IH hit).
  destruct (rangeOther mustBeEqual item others' false) as [hit'|];
    cbn [bind]; [|reflexivity].
  rewrite Bool.orb_assoc. reflexivity.
Qed.

(** An element of [others] on which the pass sets [found] is found, when
    the loop does not panic. *)
Lemma rangeOther_found (mustBeEqual : bool) (item otherItem : iface) :
  forall others,
    rangeOther mustBeEqual item others false <> Panic ->
    In otherItem others ->
    otherItemStep mustBeEqual item otherItem false = Done true ->
    rangeOther mustBeEqual item others false = Done true.
Proof.
  induction others as [|o others' IH]; intros Hreturns Hin Hhit;
    [destruct Hin|].
  cbn [rangeOther] in Hreturns |- *.
  destruct (otherItemStep mustBeEqual item o false) as [hit|] eqn:Hstep;
    cbn [bind] in Hreturns |- *; [|contradiction].
  rewrite rangeOther_or in Hreturns |- *.
  destruct (rangeOther mustBeEqual item others' false) as [hit'|] eqn:Hrest;
    cbn [bind] in Hreturns |- *; [|contradiction].
  destruct Hin as [->|Hin].
  - assert (hit = true) as -> by congruence.
    rewrite Bool.orb_true_r. reflexivity.
  - assert (hit' = true) as ->
      by (specialize (IH ltac:(discriminate) Hin Hhit); congruence).
    reflexivity.
Qed.

Lemma countGate_same_length (mustBeEqual : bool) (jsonMap otherJsonMap : gomap) :
  len jsonMap = len otherJsonMap ->
  countGate mustBeEqual jsonMap otherJsonMap = false.
Proof.
  intros Hlen. unfold countGate. rewrite Hlen, Nat.eqb_refl.
  apply Bool.andb_false_r.
Qed.

(** A well-formed plain map matches itself, and the elements of a
    well-formed plain array are found in every array that holds them. *)
Lemma plain_self (v : iface) :
  wellFormed v = true ->
  match v with
  | VMap m =>
    plainMap m = true ->
    forall mustBeEqual, jsonStringMatches m m mustBeEqual = Done true
  | VSlice items =>
    forallb plainItem items = true ->
    forall mustBeEqual otherItems,
      incl items otherItems ->
      rangeItems mustBeEqual items otherItems = Done true
  | _ => True
  end.
Proof.
  induction v as [| | | |items IH|m IH] using iface_ind; intros Hwf;
    try exact I.
  - intros Hplain mustBeEqual otherItems Hincl.
    cbn [wellFormed] in Hwf. rewrite forallb_forall in Hwf, Hplain.
    apply rangeItems_true. rewrite Forall_forall in IH |- *.
    intros item Hin. specialize (IH item Hin (Hwf item Hin)).
    apply rangeOther_found with (otherItem := item).
    + apply rangeOther_returns; [exact (Hplain item Hin)|].
      intros im -> t. apply plainMap_returns. exact (Hplain _ Hin).
    + exact (Hincl item Hin).
    + pose proof (ifaceEq_refl item (Hwf item Hin)) as Heq.
      pose proof (Hplain item Hin) as Hitem.
      unfold otherItemStep. rewrite String.eqb_refl. cbn [negb].
      destruct item as [| | | |its|im]; cbn -[jsonStringMatches ifaceEq];
        try (rewrite Heq; reflexivity); [discriminate Hitem|].
      rewrite (IH Hitem mustBeEqual). reflexivity.
  - intros Hplain mustBeEqual. cbn [wellFormed] in Hwf.
    apply andb_prop in Hwf as [Hdistinct Hwf].
    rewrite jsonStringMatches_eq, countGate_same_length by reflexivity.
    apply rangeMap_true. unfold plainMap in Hplain.
    rewrite forallb_forall in Hwf, Hplain. rewrite Forall_forall in IH |- *.
    intros [key value] Hin. cbn [fst snd].
    specialize (IH _ Hin (Hwf _ Hin)). specialize (Hplain _ Hin).
    pose proof (ifaceEq_refl value (Hwf _ Hin)) as Heq. cbn [snd] in *.
    unfold fieldStep. rewrite (distinct_lookup m key value Hdistinct Hin).
    rewrite String.eqb_refl. cbn [negb].
    destruct value as [| | | |its|vm]; cbn -[rangeItems ifaceEq Nat.eqb];
      unfold ifaceNe; try (rewrite Heq; reflexivity); [|discriminate Hplain].
    rewrite Nat.eqb_refl. cbn [negb].
    apply (IH Hplain). apply incl_refl.
Qed.

(** Strict and loose mode are reflexive on well-formed plain objects. *)
Lemma plain_reflexive (a : gomap) (mustBeEqual : bool) :
  wellFormed (VMap a) = true ->
  plainMap a = true ->
  jsonStringMatches a a mustBeEqual = Done true.
Proof. intros Hwf Hplain. exact (plain_self (VMap a) Hwf Hplain mustBeEqual). Qed.

(** A well-formed plain array matches each of its permutations, in both
    modes. *)
Lemma plain_array_any_order (key : string) (arr arr' : list iface)
  (mustBeEqual : bool) :
  wellFormed (VSlice arr) = true ->
  forallb plainItem arr = true ->
  Permutation arr arr' ->
  jsonStringMatches [(key, VSlice arr)] [(key, VSlice arr')] mustBeEqual
  = Done true.
Proof.
  intros Hwf Hplain Hperm.
  rewrite jsonStringMatches_eq, countGate_same_length by reflexivity.
  cbn [rangeMap]. unfold fieldStep. cbn [mapLookup].
  rewrite String.eqb_refl. cbn -[rangeItems Nat.eqb].
  unfold len. rewrite (Permutation_length Hperm), Nat.eqb_refl. cbn [negb].
  rewrite (plain_self (VSlice arr) Hwf Hplain mustBeEqual arr');
    [reflexivity|].
  intros item Hin. exact (Permutation_in item Hperm Hin).
Qed.

(** ** Every order of [range] *)

Lemma typeName_map (v : iface) :
  (typeName v =? "map[string]interface {}") = true -> exists m, v = VMap m.
Proof. destruct v; cbn; try discriminate. eauto. Qed.

Lemma typeName_slice (v : iface) :
  (typeName v =? "[]interface {}") = true -> exists items, v = VSlice items.
Proof. destruct v; cbn; try discriminate. eauto. Qed.

(** [otherItemStep] is a step of a run, once its recursive call is. *)
Lemma otherItemStep_RunsStep (mustBeEqual : bool) (item otherItem : iface)
  (found : bool) :
  (forall m m', item = VMap m ->
                Runs mustBeEqual m m' (jsonStringMatches m m' mustBeEqual)) ->
  RunsStep mustBeEqual item otherItem found
    (otherItemStep mustBeEqual item otherItem found).
Proof.
  intros Hsub. unfold otherItemStep.
  destruct (typeName item =? typeName otherItem) eqn:Htype; cbn [negb];
    [|apply RunsStep_type; exact Htype].
  destruct (typeName item =? "map[string]interface {}") eqn:Hmap.
  - destruct (typeName_map _ Hmap) as [m ->].
    destruct otherItem as [| | | | |m']; try discriminate Htype.
    apply RunsStep_map. apply Hsub. reflexivity.
  - apply RunsStep_other; assumption.
Qed.

Lemma rangeOther_RunsOther (mustBeEqual : bool) (item : iface) :
  (forall m m', item = VMap m ->
                Runs mustBeEqual m m' (jsonStringMatches m m' mustBeEqual)) ->
  forall others found,
    RunsOther mustBeEqual item others found
      (rangeOther mustBeEqual item others found).
Proof.
  intros Hsub. induction others as [|otherItem others' IH]; intros found;
    cbn [rangeOther]; [constructor|].
  pose proof (otherItemStep_RunsStep mustBeEqual item otherItem found Hsub)
    as Hstep.
  destruct (otherItemStep mustBeEqual item otherItem found) as [found'|];
    cbn [bind].
  - eapply RunsOther_next; [exact Hstep | apply IH].
  - apply RunsOther_panic. exact Hstep.
Qed.

(** The comparator, with each map ranged in the order of its list, is a
    run; and so is the array loop. *)
Lemma function_runs (v : iface) :
  match v with
  | VMap m =>
    forall t mustBeEqual,
      Runs mustBeEqual m t (jsonStringMatches m t mustBeEqual)
  | VSlice items =>
    forall otherItems mustBeEqual,
      RunsItems mustBeEqual items otherItems
        (rangeItems mustBeEqual items otherItems)
  | _ => True
  end.
Proof.
  induction v as [| | | |items IH|m IH] using iface_ind; try exact I.
  - intros otherItems mustBeEqual.
    induction items as [|item items' IHitems]; cbn [rangeItems];
      [constructor|].
    inversion IH as [|x l Hitem Hrest]; subst.
    assert (Hother : RunsOther mustBeEqual item otherItems false
                       (rangeOther mustBeEqual item otherItems false)).
    { apply rangeOther_RunsOther. intros im m' ->. apply Hitem. }
    destruct (rangeOther mustBeEqual item otherItems false) as [[|]|];
      cbn [bind negb].
    + apply RunsItems_next; [exact Hother | apply IHitems, Hrest].
    + apply RunsItems_stop; [exact Hother | discriminate].
    + apply RunsItems_stop; [exact Hother | discriminate].
  - intros t mustBeEqual. rewrite jsonStringMatches_eq.
    destruct (countGate mustBeEqual m t) eqn:Hgate;
      [apply Runs_gate; exact Hgate|].
    apply Runs_range with (order := m); [exact Hgate | apply Permutation_refl|].
    clear Hgate. induction m as [|[key value] rest IHrest]; cbn [rangeMap];
      [constructor|].
    inversion IH as [|x l Hvalue Hrest]; subst. cbn [snd] in Hvalue.
    assert (Hfield : RunsField mustBeEqual t key value
                       (fieldStep mustBeEqual t key value)).
    { unfold fieldStep.
      destruct (mapLookup key t) as [otherValue|] eqn:Hfound;
        [|apply RunsField_absent; exact Hfound].
      destruct (typeName value =? typeName otherValue) eqn:Htype; cbn [negb];
        [|eapply RunsField_type; eassumption].
      destruct (typeName value =? "map[string]interface {}") eqn:Hmap.
      - destruct (typeName_map _ Hmap) as [vm ->].
        destruct otherValue as [| | | | |m']; try discriminate Htype.
        apply RunsField_map; [exact Hfound | apply Hvalue].
      - destruct (typeName value =? "[]interface {}") eqn:Hslice.
        + destruct (typeName_slice _ Hslice) as [items ->].
          destruct otherValue as [| | | |otherItems|]; try discriminate Htype.
          destruct (len items =? len otherItems)%nat eqn:Hlen; cbn [negb].
          * eapply RunsField_slice; [exact Hfound | exact Hlen | apply Hvalue].
          * eapply RunsField_length; eassumption.
        + eapply RunsField_other; eassumption. }
    destruct (fieldStep mustBeEqual t key value) as [[|]|]; cbn [bind].
    + apply RunsMap_next; [exact Hfield | apply IHrest, Hrest].
    + apply RunsMap_stop; [exact Hfield | discriminate].
    + apply RunsMap_stop; [exact Hfield | discriminate].
Qed.

Lemma jsonStringMatches_runs (jsonMap otherJsonMap : gomap) (mustBeEqual : bool) :
  Runs mustBeEqual jsonMap otherJsonMap
    (jsonStringMatches jsonMap otherJsonMap mustBeEqual).
Proof. exact (function_runs (VMap jsonMap) otherJsonMap mustBeEqual). Qed.

Lemma forallb_Permutation {A : Type} (f : A -> bool) (l l' : list A) :
  Permutation l l' -> forallb f l = forallb f l'.
Proof.
  induction 1 as [|x l l' _ IH|x y l|l l' l'' _ IH1 _ IH2]; cbn [forallb].
  - reflexivity.
  - rewrite IH. reflexivity.
  - destruct (f x), (f y); reflexivity.
  - congruence.
Qed.

(** A plain field cannot panic. *)
Lemma fieldStep_returns (mustBeEqual : bool) (otherJsonMap : gomap)
  (key : string) (value : iface) :
  plainField value = true ->
  fieldStep mustBeEqual otherJsonMap key value <> Panic.
Proof.
  intros Hplain Hpanic. unfold fieldStep in Hpanic.
  destruct (mapLookup key otherJsonMap) as [otherValue|]; [|discriminate Hpanic].
  destruct value as [| | | |its|vm]; try discriminate Hplain;
    destruct otherValue as [| | | |otherItems|]; cbn -[Nat.eqb] in Hpanic;
    try discriminate Hpanic.
  destruct (negb (len its =? len otherItems)%nat); [discriminate Hpanic|].
  exact (plain_returns (VSlice its) Hplain otherItems mustBeEqual Hpanic).
Qed.

(** The loop over plain fields gives the same result in every order. *)
Lemma rangeMap_Permutation (mustBeEqual : bool) (otherJsonMap : gomap)
  (entries entries' : gomap) :
  Permutation entries entries' ->
  plainMap entries = true ->
  rangeMap mustBeEqual otherJsonMap entries
  = rangeMap mustBeEqual otherJsonMap entries'.
Proof.
  induction 1 as [|[key value] l l' _ IH|[k1 v1] [k2 v2] l|l l' l'' H1 IH1 _ IH2];
    intros Hplain.
  - reflexivity.
  - cbn [plainMap forallb snd] in Hplain.
    apply andb_prop in Hplain as [_ Hrest].
    cbn [rangeMap]. rewrite (IH Hrest). reflexivity.
  - cbn [plainMap forallb snd] in Hplain.
    apply andb_prop in Hplain as [H2 Hrest].
    apply andb_prop in Hrest as [H1 _].
    cbn [rangeMap].
    pose proof (fieldStep_returns mustBeEqual otherJsonMap k1 v1 H1) as R1.
    pose proof (fieldStep_returns mustBeEqual otherJsonMap k2 v2 H2) as R2.
    destruct (fieldStep mustBeEqual otherJsonMap k1 v1) as [[|]|];
      destruct (fieldStep mustBeEqual otherJsonMap k2 v2) as [[|]|];
      cbn [bind]; try reflexivity; contradiction.
  - rewrite (IH1 Hplain). apply IH2.
    unfold plainMap in *. rewrite <- (forallb_Permutation _ _ _ H1).
    exact Hplain.
Qed.

(** A run that returns [true] ran on a plain pattern. *)
Lemma Runs_true_plain_mutual :
  (forall mustBeEqual jsonMap otherJsonMap r,
     Runs mustBeEqual jsonMap otherJsonMap r ->
     r = Done true -> plainMap jsonMap = true)
  /\ (forall mustBeEqual otherJsonMap entries r,
        RunsMap mustBeEqual otherJsonMap entries r ->
        r = Done true -> plainMap entries = true)
  /\ (forall mustBeEqual otherJsonMap key value s,
        RunsField mustBeEqual otherJsonMap key value s ->
        s = Done true -> plainField value = true)
  /\ (forall mustBeEqual items otherItems r,
        RunsItems mustBeEqual items otherItems r ->
        r = Done true -> forallb plainItem items = true)
  /\ (forall mustBeEqual item others found r,
        RunsOther mustBeEqual item others found r ->
        r = Done true -> found = true \/ plainItem item = true)
  /\ (forall mustBeEqual item otherItem found s,
        RunsStep mustBeEqual item otherItem found s ->
        s = Done true -> found = true \/ plainItem item = true).
Proof.
  apply Runs_mutual.
  - (* gate *)
    intros; discriminate.
  - (* range *)
    intros mustBeEqual jsonMap otherJsonMap order r _ Hperm _ IH Htrue.
    unfold plainMap in *. rewrite (forallb_Permutation _ _ _ Hperm).
    exact (IH Htrue).
  - reflexivity.
  - (* next field *)
    intros mustBeEqual otherJsonMap key value rest r _ IHfield _ IHrest Htrue.
    cbn [plainMap forallb snd]. rewrite (IHfield eq_refl). exact (IHrest Htrue).
  - (* last field *)
    intros; contradiction.
  - (* absent *)
    intros; discriminate.
  - (* two types *)
    intros; discriminate.
  - (* a field that holds a map *)
    intros mustBeEqual otherJsonMap key valueMap otherMap r _ _ _ Htrue.
    destruct r as [[|]|]; discriminate Htrue.
  - (* lengths *)
    intros; discriminate.
  - (* a field that holds a slice *)
    intros mustBeEqual otherJsonMap key items otherItems r _ _ _ IH Htrue.
    exact (IH Htrue).
  - (* a field that holds neither *)
    intros mustBeEqual otherJsonMap key value otherValue _ _ Hmap Hslice _.
    destruct value as [| | | |items|m]; try reflexivity; discriminate.
  - reflexivity.
  - (* next item *)
    intros mustBeEqual item items otherItems r _ IHother _ IHitems Htrue.
    cbn [forallb]. rewrite (IHitems Htrue).
    destruct (IHother eq_refl) as [Hfound|Hitem]; [discriminate Hfound|].
    rewrite Hitem. reflexivity.
  - (* last item *)
    intros; contradiction.
  - (* end of the inner loop *)
    intros mustBeEqual item found Htrue. left. congruence.
  - (* next pass of the inner loop *)
    intros mustBeEqual item otherItem others found found' r _ IHstep _ IHrest
      Htrue.
    destruct (IHrest Htrue) as [Hfound|Hitem]; [|right; exact Hitem].
    subst found'. exact (IHstep eq_refl).
  - (* pass that panics *)
    intros; discriminate.
  - (* pass on two types *)
    intros mustBeEqual item otherItem found _ Htrue. left. congruence.
  - (* pass on two maps *)
    intros mustBeEqual itemMap otherItemMap found r _ IH Htrue.
    destruct r as [[|]|]; cbn [bind] in Htrue; [| |discriminate Htrue].
    + right. rewrite plainItem_VMap. exact (IH eq_refl).
    + left. congruence.
  - (* pass on one type that is not a map *)
    intros mustBeEqual item otherItem found Htype _ Htrue.
    destruct item as [| | | |items|m]; try (right; reflexivity);
      destruct otherItem; discriminate.
Qed.

(** On a plain pattern every run gives the result of the function. *)
Lemma Runs_plain_mutual :
  (forall mustBeEqual jsonMap otherJsonMap r,
     Runs mustBeEqual jsonMap otherJsonMap r ->
     plainMap jsonMap = true ->
     r = jsonStringMatches jsonMap otherJsonMap mustBeEqual)
  /\ (forall mustBeEqual otherJsonMap entries r,
        RunsMap mustBeEqual otherJsonMap entries r ->
        plainMap entries = true ->
        r = rangeMap mustBeEqual otherJsonMap entries)
  /\ (forall mustBeEqual otherJsonMap key value s,
        RunsField mustBeEqual otherJsonMap key value s ->
        plainField value = true ->
        s = fieldStep mustBeEqual otherJsonMap key value)
  /\ (forall mustBeEqual items otherItems r,
        RunsItems mustBeEqual items otherItems r ->
        forallb plainItem items = true ->
        r = rangeItems mustBeEqual items otherItems)
  /\ (forall mustBeEqual item others found r,
        RunsOther mustBeEqual item others found r ->
        plainItem item = true ->
        r = rangeOther mustBeEqual item others found)
  /\ (forall mustBeEqual item otherItem found s,
        RunsStep mustBeEqual item otherItem found s ->
        plainItem item = true ->
        s = otherItemStep mustBeEqual item otherItem found).
Proof.
  apply Runs_mutual.
  - (* gate *)
    intros mustBeEqual jsonMap otherJsonMap Hgate _.
    rewrite jsonStringMatches_eq, Hgate. reflexivity.
  - (* range *)
    intros mustBeEqual jsonMap otherJsonMap order r Hgate Hperm _ IH Hplain.
    rewrite jsonStringMatches_eq, Hgate.
    rewrite (rangeMap_Permutation _ _ _ _ Hperm Hplain). apply IH.
    unfold plainMap in *. rewrite <- (forallb_Permutation _ _ _ Hperm).
    exact Hplain.
  - reflexivity.
  - (* next field *)
    intros mustBeEqual otherJsonMap key value rest r _ IHfield _ IHrest Hplain.
    cbn [plainMap forallb snd] in Hplain.
    apply andb_prop in Hplain as [Hvalue Hrest].
    cbn [rangeMap]. rewrite <- (IHfield Hvalue). cbn [bind]. exact (IHrest Hrest).
  - (* last field *)
    intros mustBeEqual otherJsonMap key value rest s _ IHfield Hstop Hplain.
    cbn [plainMap forallb snd] in Hplain.
    apply andb_prop in Hplain as [Hvalue _].
    cbn [rangeMap]. rewrite <- (IHfield Hvalue).
    destruct s as [[|]|]; [contradiction | reflexivity | reflexivity].
  - (* absent *)
    intros mustBeEqual otherJsonMap key value Hfound _.
    unfold fieldStep. rewrite Hfound. reflexivity.
  - (* two types *)
    intros mustBeEqual otherJsonMap key value otherValue Hfound Htype _.
    unfold fieldStep. rewrite Hfound. cbv zeta. rewrite Htype. reflexivity.
  - (* map *)
    intros; discriminate.
  - (* lengths *)
    intros mustBeEqual otherJsonMap key items otherItems Hfound Hlen _.
    rewrite (fieldStep_slice _ _ _ _ _ Hfound), Hlen. reflexivity.
  - (* slice *)
    intros mustBeEqual otherJsonMap key items otherItems r Hfound Hlen _ IH
      Hplain.
    rewrite (fieldStep_slice _ _ _ _ _ Hfound), Hlen. exact (IH Hplain).
  - (* neither *)
    intros mustBeEqual otherJsonMap key value otherValue Hfound Htype Hmap
      Hslice _.
    unfold fieldStep. rewrite Hfound. cbv zeta.
    rewrite Htype, Hmap, Hslice. reflexivity.
  - reflexivity.
  - (* next item *)
    intros mustBeEqual item items otherItems r _ IHother _ IHitems Hplain.
    cbn [forallb] in Hplain. apply andb_prop in Hplain as [Hitem Hrest].
    cbn [rangeItems]. rewrite <- (IHother Hitem). cbn [bind negb].
    exact (IHitems Hrest).
  - (* last item *)
    intros mustBeEqual item items otherItems s _ IHother Hstop Hplain.
    cbn [forallb] in Hplain. apply andb_prop in Hplain as [Hitem _].
    cbn [rangeItems]. rewrite <- (IHother Hitem).
    destruct s as [[|]|]; [contradiction | reflexivity | reflexivity].
  - reflexivity.
  - (* next pass *)
    intros mustBeEqual item otherItem others found found' r _ IHstep _ IHrest
      Hitem.
    cbn [rangeOther]. rewrite <- (IHstep Hitem). cbn [bind].
    exact (IHrest Hitem).
  - (* pass that panics *)
    intros mustBeEqual item otherItem others found _ IHstep Hitem.
    cbn [rangeOther]. rewrite <- (IHstep Hitem). reflexivity.
  - (* pass on two types *)
    intros mustBeEqual item otherItem found Htype _.
    unfold otherItemStep. rewrite Htype. reflexivity.
  - (* pass on two maps *)
    intros mustBeEqual itemMap otherItemMap found r _ IH Hitem.
    rewrite plainItem_VMap in Hitem. rewrite (IH Hitem). reflexivity.
  - (* pass on one type that is not a map *)
    intros mustBeEqual item otherItem found Htype Hmap _.
    unfold otherItemStep. rewrite Htype, Hmap. reflexivity.
Qed.

(** The function and the runs agree on [true]: a run returns [true] exactly
    when the function does, and then every run does. *)
Lemma Runs_true_iff (mustBeEqual : bool) (jsonMap otherJsonMap : gomap) :
  Runs mustBeEqual jsonMap otherJsonMap (Done true)
  <-> jsonStringMatches jsonMap otherJsonMap mustBeEqual = Done true.
Proof.
  split.
  - intros Hrun.
    pose proof (proj1 Runs_true_plain_mutual _ _ _ _ Hrun eq_refl) as Hplain.
    symmetry. exact (proj1 Runs_plain_mutual _ _ _ _ Hrun Hplain).
  - intros <-. apply jsonStringMatches_runs.
Qed.

Lemma Runs_true_all (mustBeEqual : bool) (jsonMap otherJsonMap : gomap)
  (r : result bool) :
  jsonStringMatches jsonMap otherJsonMap mustBeEqual = Done true ->
  Runs mustBeEqual jsonMap otherJsonMap r ->
  r = Done true.
Proof.
  intros Htrue Hrun. rewrite <- Htrue.
  apply (proj1 Runs_plain_mutual _ _ _ _ Hrun).
  exact (jsonStringMatches_true_plain _ _ _ Htrue).
Qed.


(** No run returns [true] where the function does not. *)
Lemma Runs_never_true (mustBeEqual : bool) (jsonMap otherJsonMap : gomap)
  (r : result bool) :
  jsonStringMatches jsonMap otherJsonMap mustBeEqual <> Done true ->
  Runs mustBeEqual jsonMap otherJsonMap r ->
  r <> Done true.
Proof. intros Hnot Hrun ->. apply Hnot, Runs_true_iff, Hrun. Qed.

(** When the function returns [false] on a plain pattern, every run does. *)
Lemma Runs_plain (mustBeEqual : bool) (jsonMap otherJsonMap : gomap)
  (r : result bool) :
  plainMap jsonMap = true ->
  Runs mustBeEqual jsonMap otherJsonMap r ->
  r = jsonStringMatches jsonMap otherJsonMap mustBeEqual.
Proof. intros Hplain Hrun. exact (proj1 Runs_plain_mutual _ _ _ _ Hrun Hplain). Qed.

(** A run stopped by the field-count gate returns [false]. *)
Lemma Runs_gate_inv (mustBeEqual : bool) (jsonMap otherJsonMap : gomap)
  (r : result bool) :
  countGate mustBeEqual jsonMap otherJsonMap = true ->
  Runs mustBeEqual jsonMap otherJsonMap r ->
  r = Done false.
Proof.
  intros Hgate Hrun. inversion Hrun; subst; [reflexivity | congruence].
Qed.

(** A run reads the target through the lookups of the pattern's keys and
    through the field-count gate only. *)
Lemma RunsField_ext (mustBeEqual : bool) (t t' : gomap) (key : string)
  (value : iface) (s : result bool) :
  mapLookup key t = mapLookup key t' ->
  RunsField mustBeEqual t key value s ->
  RunsField mustBeEqual t' key value s.
Proof.
  intros Hsame Hrun.
  inversion Hrun; subst; rewrite Hsame in *;
    [ apply RunsField_absent
    | eapply RunsField_type
    | apply RunsField_map
    | eapply RunsField_length
    | eapply RunsField_slice
    | eapply RunsField_other ]; eassumption.
Qed.

Lemma RunsMap_ext (mustBeEqual : bool) (t t' entries : gomap) (r : result bool) :
  (forall key, In key (keys entries) -> mapLookup key t = mapLookup key t') ->
  RunsMap mustBeEqual t entries r ->
  RunsMap mustBeEqual t' entries r.
Proof.
  intros Hsame Hrun. revert Hsame.
  induction Hrun as [mode t|mode t key value rest r Hfield Hrest IH
                    |mode t key value rest s Hfield Hstop]; intros Hsame.
  - constructor.
  - apply RunsMap_next.
    + apply (RunsField_ext _ t); [apply Hsame; left; reflexivity | exact Hfield].
    + apply IH. intros k Hk. apply Hsame. right. exact Hk.
  - apply RunsMap_stop; [|exact Hstop].
    apply (RunsField_ext _ t); [apply Hsame; left; reflexivity | exact Hfield].
Qed.

Lemma Runs_ext (mustBeEqual : bool) (jsonMap t t' : gomap) (r : result bool) :
  (forall key, In key (keys jsonMap) -> mapLookup key t = mapLookup key t') ->
  countGate mustBeEqual jsonMap t = countGate mustBeEqual jsonMap t' ->
  Runs mustBeEqual jsonMap t r ->
  Runs mustBeEqual jsonMap t' r.
Proof.
  intros Hsame Hgate Hrun.
  inversion Hrun as [mode p o Hstop|mode p o order r' Hpass Hperm Hmap]; subst.
  - apply Runs_gate. congruence.
  - apply Runs_range with (order := order); [congruence | exact Hperm|].
    apply (RunsMap_ext _ t); [|exact Hmap].
    intros key Hkey. apply Hsame.
    apply Permutation_in with (l := keys order); [|exact Hkey].
    apply Permutation_map, Permutation_sym, Hperm.
Qed.

(** The runs do not depend on the order of the pattern's list. *)
Lemma Runs_Permutation (mustBeEqual : bool) (jsonMap jsonMap' otherJsonMap : gomap)
  (r : result bool) :
  Permutation jsonMap jsonMap' ->
  Runs mustBeEqual jsonMap otherJsonMap r ->
  Runs mustBeEqual jsonMap' otherJsonMap r.
Proof.
  intros Hperm Hrun.
  assert (Hgate : countGate mustBeEqual jsonMap' otherJsonMap
                  = countGate mustBeEqual jsonMap otherJsonMap).
  { unfold countGate, len. rewrite (Permutation_length Hperm). reflexivity. }
  inversion Hrun as [mode p o Hstop|mode p o order r' Hpass Hperm' Hmap]; subst.
  - apply Runs_gate. congruence.
  - apply Runs_range with (order := order); [congruence| |exact Hmap].
    apply Permutation_trans with (l' := jsonMap);
      [apply Permutation_sym, Hperm | exact Hperm'].
Qed.

(** ** C1: a nested object that matches makes the comparator panic *)

(** C1 (amended). Let the pattern map [key] to a nested object, the target
    map [key] to a nested object, and the recursive comparison of the two
    return [true].  Then the comparator never returns [true], in whatever
    order the maps are ranged; and when the field-count gate lets the call
    through and the fields ranged before [key] all pass, it panics at
    [key]. *)
Theorem nested_object_panics (mustBeEqual : bool) (pre post otherJsonMap : gomap)
  (key : string) (m m' : gomap) :
  mapLookup key otherJsonMap = Some (VMap m') ->
  jsonStringMatches m m' mustBeEqual = Done true ->
  jsonStringMatches (pre ++ (key, VMap m) :: post) otherJsonMap mustBeEqual
    <> Done true
  /\ (forall r,
        Runs mustBeEqual (pre ++ (key, VMap m) :: post) otherJsonMap r ->
        r <> Done true)
  /\ (countGate mustBeEqual (pre ++ (key, VMap m) :: post) otherJsonMap = false ->
      rangeMap mustBeEqual otherJsonMap pre = Done true ->
      jsonStringMatches (pre ++ (key, VMap m) :: post) otherJsonMap mustBeEqual
        = Panic).
Proof.
  intros Hfound Hsub.
  assert (Hnever : jsonStringMatches (pre ++ (key, VMap m) :: post)
                     otherJsonMap mustBeEqual <> Done true).
  { apply nested_object_never_true with (key := key) (m := m).
    apply in_or_app. right. left. reflexivity. }
  split; [exact Hnever|]. split.
  - intros r. apply Runs_never_true, Hnever.
  - intros Hgate Hpre. rewrite jsonStringMatches_eq, Hgate, rangeMap_app, Hpre.
    cbn [bind rangeMap].
    rewrite (fieldStep_VMap_panics _ _ _ _ _ Hfound Hsub). reflexivity.
Qed.

(** The pattern [{"n": 1, "user": {"id": 1}}], ranged from ["n"], against
    the same object as target, in strict mode. *)
Lemma nested_object_panics_witness :
  mapLookup "user" [("n", num 1); ("user", VMap [("id", num 1)])]
  = Some (VMap [("id", num 1)])
  /\ jsonStringMatches [("id", num 1)] [("id", num 1)] true = Done true
  /\ rangeMap true [("n", num 1); ("user", VMap [("id", num 1)])]
       [("n", num 1)] = Done true
  /\ jsonStringMatches [("n", num 1); ("user", VMap [("id", num 1)])]
       [("n", num 1); ("user", VMap [("id", num 1)])] true <> Done true
  /\ jsonStringMatches [("n", num 1); ("user", VMap [("id", num 1)])]
       [("n", num 1); ("user", VMap [("id", num 1)])] true = Panic.
Proof.
  assert (Hfound : mapLookup "user"
                     [("n", num 1); ("user", VMap [("id", num 1)])]
                   = Some (VMap [("id", num 1)])) by reflexivity.
  assert (Hsub : jsonStringMatches [("id", num 1)] [("id", num 1)] true
                 = Done true) by (vm_compute; reflexivity).
  assert (Hpre : rangeMap true [("n", num 1); ("user", VMap [("id", num 1)])]
                   [("n", num 1)] = Done true) by (vm_compute; reflexivity).
  destruct (nested_object_panics true [("n", num 1)] []
              [("n", num 1); ("user", VMap [("id", num 1)])]
              "user" [("id", num 1)] [("id", num 1)] Hfound Hsub)
    as (Hnever & _ & Hpanic).
  split; [exact Hfound|]. split; [exact Hsub|]. split; [exact Hpre|].
  split; [exact Hnever|].
  apply Hpanic; [reflexivity | exact Hpre].
Defined.

(** C1 as stated fails.  Strict mode: the pattern [{"a": {}}] against the
    target [{"a": {}, "b": null}] is stopped by the field-count gate, in
    every order.  Loose mode: for the pattern [{"b": 1, "a": {}}] ranged
    from ["b"] and the target [{"a": {}, "b": 2}], the field ["b"] returns
    [false] first. *)
Lemma nested_object_verdict_counterexample :
  (mapLookup "a" [("a", VMap []); ("b", VNil)] = Some (VMap [])
   /\ jsonStringMatches [] [] true = Done true
   /\ jsonStringMatches [("a", VMap [])] [("a", VMap []); ("b", VNil)] true
      = Done false
   /\ Runs true [("a", VMap [])] [("a", VMap []); ("b", VNil)] (Done false))
  /\ (mapLookup "a" [("a", VMap []); ("b", num 2)] = Some (VMap [])
      /\ jsonStringMatches [] [] false = Done true
      /\ jsonStringMatches [("b", num 1); ("a", VMap [])]
           [("a", VMap []); ("b", num 2)] false
         = Done false
      /\ Runs false [("b", num 1); ("a", VMap [])]
           [("a", VMap []); ("b", num 2)] (Done false)).
Proof.
  repeat split; try (vm_compute; reflexivity).
  - apply Runs_gate. reflexivity.
  - change (Done false) with
      (jsonStringMatches [("b", num 1); ("a", VMap [])]
         [("a", VMap []); ("b", num 2)] false).
    apply jsonStringMatches_runs.
Qed.

(** ** C2: a parse failure is not reported *)

(** [UnmarshalJSON] returns the nil error whatever [json.Compact] did. *)
Lemma UnmarshalJSON_nil_error (json_Compact : bytes -> string * option error)
  (data : bytes) :
  snd (UnmarshalJSON json_Compact data) = None.
Proof. unfold UnmarshalJSON. destruct (json_Compact data). reflexivity. Qed.

(** The comparator on a nil pattern. *)
Lemma jsonStringMatches_nil_pattern (otherJsonMap : gomap) (mustBeEqual : bool) :
  jsonStringMatches [] otherJsonMap mustBeEqual
  = Done (negb mustBeEqual || (len otherJsonMap =? 0)%nat).
Proof.
  rewrite jsonStringMatches_eq. unfold countGate.
  destruct mustBeEqual; cbn -[Nat.eqb]; [|reflexivity].
  destruct otherJsonMap; reflexivity.
Qed.

(** The comparator on a nil target. *)
Lemma jsonStringMatches_nil_target (jsonMap : gomap) (mustBeEqual : bool) :
  jsonStringMatches jsonMap [] mustBeEqual = Done (len jsonMap =? 0)%nat.
Proof.
  rewrite jsonStringMatches_eq. unfold countGate.
  destruct jsonMap as [|[key value] rest]; destruct mustBeEqual; reflexivity.
Qed.

(** C2 (amended). When [json.Unmarshal] fails on a text and leaves the map
    nil, no error reaches the caller and the comparator still runs, on the
    nil map: as a pattern the text matches every target, and strictly equals
    the targets that decode to no field; as a target it is matched exactly by
    the patterns that decode to no field.  [UnmarshalJSON] returns the nil
    error for every input. *)
Theorem parse_failure_gives_verdict
  (json_Compact : bytes -> string * option error)
  (json_Unmarshal : bytes -> gomap * option error)
  (bad : JsonString) (e : error) :
  json_Unmarshal (bytesOf bad) = ([], Some e) ->
  (forall data, snd (UnmarshalJSON json_Compact data) = None)
  /\ (forall other, Matches json_Unmarshal bad other = Done true)
  /\ (forall other,
        Equals json_Unmarshal bad other
        = Done (len (decoded json_Unmarshal other) =? 0)%nat)
  /\ (forall j,
        Matches json_Unmarshal j bad
        = Done (len (decoded json_Unmarshal j) =? 0)%nat)
  /\ (forall j,
        Equals json_Unmarshal j bad
        = Done (len (decoded json_Unmarshal j) =? 0)%nat).
Proof.
  intros Hbad.
  assert (Hnil : decoded json_Unmarshal bad = []).
  { unfold decoded. rewrite Hbad. reflexivity. }
  split; [intros data; apply UnmarshalJSON_nil_error|].
  repeat split; intros x; unfold Matches, Equals; rewrite Hnil.
  - apply jsonStringMatches_nil_pattern.
  - apply jsonStringMatches_nil_pattern.
  - apply jsonStringMatches_nil_target.
  - apply jsonStringMatches_nil_target.
Qed.

(** The empty text, which [json.Unmarshal] rejects. *)
Lemma parse_failure_gives_verdict_witness :
  sampleUnmarshal (bytesOf "")
  = ([], Some "unexpected end of JSON input")
  /\ Matches sampleUnmarshal "" (docField "id" "5") = Done true
  /\ Equals sampleUnmarshal "" "{}" = Done true
  /\ Matches sampleUnmarshal (docField "id" "5") "" = Done false.
Proof.
  assert (Hbad : sampleUnmarshal (bytesOf "")
                 = ([], Some "unexpected end of JSON input"))
    by reflexivity.
  destruct (parse_failure_gives_verdict sampleCompact sampleUnmarshal "" _ Hbad)
    as (_ & Hpattern & Hstrict & Htarget & _).
  split; [exact Hbad|].
  split; [apply Hpattern|].
  split; [rewrite Hstrict; reflexivity|].
  rewrite (Htarget (docField "id" "5")). reflexivity.
Defined.

(** C2 as stated fails: the empty text does not parse, and still [Matches]
    and [Equals] return verdicts for it, and [UnmarshalJSON] returns the nil
    error. *)
Lemma parse_failure_counterexample :
  snd (sampleUnmarshal (bytesOf "")) <> None
  /\ Matches sampleUnmarshal "" "" = Done true
  /\ Equals sampleUnmarshal "" "" = Done true
  /\ Matches sampleUnmarshal (docField "id" "5") "" = Done false
  /\ snd (sampleCompact (bytesOf "")) <> None
  /\ snd (UnmarshalJSON sampleCompact (bytesOf "")) = None.
Proof. vm_compute. repeat split; discriminate. Qed.

(** ** C3: a target element serves several pattern elements *)

(** The search for one pattern element does not change [otherItems]: as soon
    as one copy of [item] is found, any number of copies is. *)
Lemma rangeItems_repeat (mustBeEqual : bool) (item : iface)
  (otherItems : list iface) (n : nat) :
  rangeOther mustBeEqual item otherItems false = Done true ->
  rangeItems mustBeEqual (repeat item n) otherItems = Done true.
Proof.
  intros Hfound. induction n as [|n IH]; [reflexivity|].
  cbn [repeat rangeItems]. rewrite Hfound. exact IH.
Qed.

(** C3. The array loop searches the whole target array for every pattern
    element, so an element of the target found for one pattern element is
    found again for the next: if one copy of [item] is found in
    [otherItems], any number of copies is.  For the pattern [{"k": [1,1]}]
    and the target [{"k": [1,2]}] the lengths agree, [1] is found (in the
    first slot only, [2] is not equal to it), and the comparator returns
    [true] in both modes and in every order of [range], and so do [Matches]
    and [Equals] on every pair of texts that decode to these maps. *)
Theorem array_candidates_not_consumed :
  (forall mustBeEqual item otherItems n,
     rangeOther mustBeEqual item otherItems false = Done true ->
     rangeItems mustBeEqual (repeat item n) otherItems = Done true)
  /\ len [num 1; num 1] = len [num 1; num 2]
  /\ (forall mustBeEqual,
        otherItemStep mustBeEqual (num 1) (num 1) false = Done true
        /\ otherItemStep mustBeEqual (num 1) (num 2) false = Done false
        /\ rangeOther mustBeEqual (num 1) [num 1; num 2] false = Done true
        /\ jsonStringMatches [("k", VSlice [num 1; num 1])]
             [("k", VSlice [num 1; num 2])] mustBeEqual = Done true
        /\ forall r,
             Runs mustBeEqual [("k", VSlice [num 1; num 1])]
               [("k", VSlice [num 1; num 2])] r ->
             r = Done true)
  /\ (forall json_Unmarshal j other,
        decoded json_Unmarshal j = [("k", VSlice [num 1; num 1])] ->
        decoded json_Unmarshal other = [("k", VSlice [num 1; num 2])] ->
        Matches json_Unmarshal j other = Done true
        /\ Equals json_Unmarshal j other = Done true).
Proof.
  split; [exact rangeItems_repeat|].
  split; [reflexivity|].
  assert (Hboth : forall mustBeEqual,
             jsonStringMatches [("k", VSlice [num 1; num 1])]
               [("k", VSlice [num 1; num 2])] mustBeEqual = Done true).
  { intros [|]; vm_compute; reflexivity. }
  split.
  - intros mustBeEqual.
    repeat split; try apply Hboth;
      try (destruct mustBeEqual; vm_compute; reflexivity).
    intros r. apply Runs_true_all, Hboth.
  - intros json_Unmarshal j other Hj Hother. unfold Matches, Equals.
    rewrite Hj, Hother. split; apply Hboth.
Qed.

(** ** C4: strict mode on one object twice *)

(** C4 (the code departs from it). For [a = {"k": {}}], [equals(a, a)] does
    not return [true]: the recursive comparison of [{}] with [{}] succeeds
    and the comparison after the [switch] panics.  No object with a field
    that holds an object equals itself, in whatever order it is ranged. *)
Theorem strict_reflexivity_fails :
  jsonStringMatches [] [] true = Done true
  /\ jsonStringMatches [("k", VMap [])] [("k", VMap [])] true = Panic
  /\ Equals sampleUnmarshal (docField "k" "{}") (docField "k" "{}") = Panic
  /\ forall a key m r,
       In (key, VMap m) a -> Runs true a a r -> r <> Done true.
Proof.
  repeat split; try (vm_compute; reflexivity).
  intros a key m r Hin. apply Runs_never_true.
  exact (nested_object_never_true true a a key m Hin).
Qed.

(** ** C5: the length of arrays *)

(** Two arrays of different lengths fail the field, in both modes. *)
Lemma fieldStep_length_mismatch (mustBeEqual : bool) (otherJsonMap : gomap)
  (key : string) (items otherItems : list iface) :
  mapLookup key otherJsonMap = Some (VSlice otherItems) ->
  len items <> len otherItems ->
  fieldStep mustBeEqual otherJsonMap key (VSlice items) = Done false.
Proof.
  intros Hfound Hlen. unfold fieldStep. rewrite Hfound. cbn -[Nat.eqb].
  apply Nat.eqb_neq in Hlen. rewrite Hlen. reflexivity.
Qed.

(** A field that passes against an array is an array of the same length. *)
Lemma fieldStep_slice_inv (mustBeEqual : bool) (otherJsonMap : gomap)
  (key : string) (value : iface) (otherItems : list iface) :
  mapLookup key otherJsonMap = Some (VSlice otherItems) ->
  fieldStep mustBeEqual otherJsonMap key value = Done true ->
  exists items, value = VSlice items /\ len items = len otherItems.
Proof.
  intros Hfound Hstep. unfold fieldStep in Hstep. rewrite Hfound in Hstep.
  destruct value as [| | | |items|m]; cbn -[Nat.eqb] in Hstep;
    try discriminate Hstep.
  exists items. split; [reflexivity|].
  destruct (len items =? len otherItems)%nat eqn:Hlen;
    [apply Nat.eqb_eq, Hlen | discriminate Hstep].
Qed.

(** Once every field passes, lengthening the target's array under [key]
    makes the loop return [false] at the pattern's field [key]. *)
Lemma rangeMap_longer_array (mustBeEqual : bool) (before after : gomap)
  (key : string) (otherItems : list iface) (extra : iface) (entries : gomap) :
  ~ In key (keys before) ->
  In key (keys entries) ->
  rangeMap mustBeEqual (before ++ (key, VSlice otherItems) :: after) entries
    = Done true ->
  rangeMap mustBeEqual
    (before ++ (key, VSlice (otherItems ++ [extra])) :: after) entries
    = Done false.
Proof.
  intros Hfresh. induction entries as [|[k v] rest IH]; [intros []|].
  intros Hin Htrue. cbn [rangeMap] in Htrue |- *.
  apply bind_Done_inv in Htrue as [[|] [Hstep Hrest]]; [|discriminate].
  destruct (String.eqb_spec k key) as [->|Hne].
  - destruct (fieldStep_slice_inv _ _ _ _ _
                (mapLookup_here key _ before after Hfresh) Hstep)
      as (items & -> & Hlen).
    rewrite (fieldStep_length_mismatch mustBeEqual _ key items
               (otherItems ++ [extra])).
    + reflexivity.
    + apply mapLookup_here, Hfresh.
    + unfold len in *. rewrite length_app. cbn [length]. lia.
  - rewrite (fieldStep_ext mustBeEqual _
               (before ++ (key, VSlice otherItems) :: after) k v).
    + rewrite Hstep. cbn [bind]. apply IH; [|exact Hrest].
      destruct Hin as [Heq|Hin]; [cbn in Heq; congruence | exact Hin].
    + rewrite !mapLookup_elsewhere by exact Hne. reflexivity.
Qed.

(** C5. In both modes, a pattern field and a target field that are arrays of
    different lengths fail: the field returns [false] and the comparator
    does not return [true].  And when the comparator returns [true],
    appending one element to the target's array makes it return [false].
    Both hold in every order of [range]. *)
Theorem array_length_checked (mustBeEqual : bool) (jsonMap before after : gomap)
  (key : string) (items otherItems : list iface) (extra : iface) :
  In (key, VSlice items) jsonMap ->
  ~ In key (keys before) ->
  (len items <> len otherItems ->
   fieldStep mustBeEqual (before ++ (key, VSlice otherItems) :: after) key
     (VSlice items) = Done false
   /\ jsonStringMatches jsonMap (before ++ (key, VSlice otherItems) :: after)
        mustBeEqual <> Done true
   /\ forall r,
        Runs mustBeEqual jsonMap (before ++ (key, VSlice otherItems) :: after) r ->
        r <> Done true)
  /\ (jsonStringMatches jsonMap (before ++ (key, VSlice otherItems) :: after)
        mustBeEqual = Done true ->
      jsonStringMatches jsonMap
        (before ++ (key, VSlice (otherItems ++ [extra])) :: after) mustBeEqual
      = Done false
      /\ forall r,
           Runs mustBeEqual jsonMap
             (before ++ (key, VSlice (otherItems ++ [extra])) :: after) r ->
           r = Done false).
Proof.
  intros Hin Hfresh. split.
  - intros Hlen.
    assert (Hstep : fieldStep mustBeEqual
                      (before ++ (key, VSlice otherItems) :: after) key
                      (VSlice items) = Done false).
    { apply fieldStep_length_mismatch with (otherItems := otherItems);
        [apply mapLookup_here, Hfresh | exact Hlen]. }
    assert (Hnot : jsonStringMatches jsonMap
                     (before ++ (key, VSlice otherItems) :: after) mustBeEqual
                   <> Done true).
    { intros Htrue. rewrite jsonStringMatches_eq in Htrue.
      destruct (countGate _ _ _); [discriminate|].
      apply rangeMap_true in Htrue. rewrite Forall_forall in Htrue.
      specialize (Htrue _ Hin). cbn [fst snd] in Htrue. congruence. }
    split; [exact Hstep|]. split; [exact Hnot|].
    intros r. apply Runs_never_true, Hnot.
  - intros Htrue.
    assert (Hfalse : jsonStringMatches jsonMap
                       (before ++ (key, VSlice (otherItems ++ [extra])) :: after)
                       mustBeEqual = Done false).
    { revert Htrue. rewrite !jsonStringMatches_eq. unfold countGate.
      rewrite !len_app_cons.
      destruct (mustBeEqual && _); [discriminate|].
      apply rangeMap_longer_array; [exact Hfresh|].
      apply in_map with (f := fst) in Hin. exact Hin. }
    split; [exact Hfalse|].
    intros r Hrun. rewrite <- Hfalse. apply Runs_plain; [|exact Hrun].
    exact (jsonStringMatches_true_plain _ _ _ Htrue).
Qed.

(** The pattern [{"tags": ["a", "b"]}] against the targets [{"tags": ["b"]}],
    [{"tags": ["b", "a"]}] and [{"tags": ["b", "a", "c"]}], in loose mode. *)
Lemma array_length_checked_witness :
  In ("tags", VSlice [VString "a"; VString "b"])
    [("tags", VSlice [VString "a"; VString "b"])]
  /\ ~ In "tags" (keys [])
  /\ len [VString "a"; VString "b"] <> len [VString "b"]
  /\ fieldStep false [("tags", VSlice [VString "b"])] "tags"
       (VSlice [VString "a"; VString "b"]) = Done false
  /\ jsonStringMatches [("tags", VSlice [VString "a"; VString "b"])]
       [("tags", VSlice [VString "b"; VString "a"])] false = Done true
  /\ jsonStringMatches [("tags", VSlice [VString "a"; VString "b"])]
       [("tags", VSlice [VString "b"; VString "a"; VString "c"])] false
     = Done false.
Proof.
  assert (Hin : In ("tags", VSlice [VString "a"; VString "b"])
                  [("tags", VSlice [VString "a"; VString "b"])])
    by (left; reflexivity).
  assert (Hfresh : ~ In "tags" (keys [])) by (intros []).
  assert (Hlen : len [VString "a"; VString "b"] <> len [VString "b"])
    by (cbv; discriminate).
  assert (Htrue : jsonStringMatches [("tags", VSlice [VString "a"; VString "b"])]
                    [("tags", VSlice [VString "b"; VString "a"])] false
                  = Done true) by (vm_compute; reflexivity).
  split; [exact Hin|]. split; [exact Hfresh|]. split; [exact Hlen|]. split.
  - exact (proj1 (proj1 (array_length_checked false
                           [("tags", VSlice [VString "a"; VString "b"])] [] []
                           "tags" [VString "a"; VString "b"] [VString "b"]
                           (VString "c") Hin Hfresh) Hlen)).
  - split; [exact Htrue|].
    exact (proj1 (proj2 (array_length_checked false
                           [("tags", VSlice [VString "a"; VString "b"])] [] []
                           "tags" [VString "a"; VString "b"]
                           [VString "b"; VString "a"] (VString "c") Hin Hfresh)
                    Htrue)).
Defined.

(** ** C6: the field-count gate *)

(** C6. Strict mode returns [false] at once when the two maps differ in
    their number of fields; loose mode has no such gate, its result is that
    of the loop over the pattern.  So a field added to the target under a key
    that the pattern does not have leaves the loose result as it was, and
    makes the strict result [false] when the counts agreed before.  All of
    it holds in every order of [range]. *)
Theorem field_count_gate (jsonMap before after : gomap) (key : string)
  (value : iface) :
  ~ In key (keys jsonMap) ->
  (forall otherJsonMap,
     len jsonMap <> len otherJsonMap ->
     jsonStringMatches jsonMap otherJsonMap true = Done false
     /\ forall r, Runs true jsonMap otherJsonMap r -> r = Done false)
  /\ (forall otherJsonMap,
        countGate false jsonMap otherJsonMap = false
        /\ jsonStringMatches jsonMap otherJsonMap false
           = rangeMap false otherJsonMap jsonMap)
  /\ jsonStringMatches jsonMap (before ++ (key, value) :: after) false
     = jsonStringMatches jsonMap (before ++ after) false
  /\ (forall r,
        Runs false jsonMap (before ++ (key, value) :: after) r
        <-> Runs false jsonMap (before ++ after) r)
  /\ (len jsonMap = len (before ++ after) ->
      jsonStringMatches jsonMap (before ++ (key, value) :: after) true
      = Done false
      /\ forall r,
           Runs true jsonMap (before ++ (key, value) :: after) r ->
           r = Done false).
Proof.
  intros Hfresh.
  assert (Hgate : forall otherJsonMap,
             len jsonMap <> len otherJsonMap ->
             countGate true jsonMap otherJsonMap = true).
  { intros otherJsonMap Hlen. unfold countGate.
    apply Nat.eqb_neq in Hlen. rewrite Hlen. reflexivity. }
  assert (Hstrict : forall otherJsonMap,
             len jsonMap <> len otherJsonMap ->
             jsonStringMatches jsonMap otherJsonMap true = Done false
             /\ forall r, Runs true jsonMap otherJsonMap r -> r = Done false).
  { intros otherJsonMap Hlen. split.
    - rewrite jsonStringMatches_eq, (Hgate _ Hlen). reflexivity.
    - intros r. apply Runs_gate_inv, Hgate, Hlen. }
  assert (Hsame : forall k, In k (keys jsonMap) ->
             mapLookup k (before ++ (key, value) :: after)
             = mapLookup k (before ++ after)).
  { intros k Hk. apply mapLookup_elsewhere. intros ->. exact (Hfresh Hk). }
  split; [exact Hstrict|].
  split; [intros otherJsonMap; split; [reflexivity | apply jsonStringMatches_eq]|].
  split; [|split].
  - rewrite !jsonStringMatches_eq. cbn [countGate andb].
    apply rangeMap_ext, Hsame.
  - intros r. split; apply Runs_ext; try reflexivity;
      intros k Hk; rewrite (Hsame k Hk); reflexivity.
  - intros Hlen. apply Hstrict. rewrite len_app_cons. lia.
Qed.

(** The pattern [{"id": 5}], the target [{"id": 5}] and the added field
    ["name": "x"]. *)
Lemma field_count_gate_witness :
  ~ In "name" (keys [("id", num 5)])
  /\ jsonStringMatches [("id", num 5)] [("id", num 5); ("name", VString "x")]
       false = Done true
  /\ jsonStringMatches [("id", num 5)] [("id", num 5); ("name", VString "x")]
       true = Done false.
Proof.
  assert (Hfresh : ~ In "name" (keys [("id", num 5)])).
  { cbn. intros [Heq|[]]. discriminate Heq. }
  destruct (field_count_gate [("id", num 5)] [("id", num 5)] [] "name"
              (VString "x") Hfresh) as (_ & _ & Hloose & _ & Hstrict).
  split; [exact Hfresh|]. split.
  - cbn [app] in Hloose. rewrite Hloose. vm_compute. reflexivity.
  - exact (proj1 (Hstrict eq_refl)).
Defined.

(** ** C7: arrays in another order *)

(** C7 (the code departs from it). For [arr = [{"a": {}}]] and for
    [arr = [[1]]], each a permutation of itself, [matches({"k": arr},
    {"k": arr})] does not return [true], in whatever order the maps are
    ranged: the element is compared with itself, and the comparison panics,
    in the first case after the nested object [{}] has matched, in the
    second on [==] between two slices. *)
Theorem array_order_panics :
  Permutation [VMap [("a", VMap [])]] [VMap [("a", VMap [])]]
  /\ jsonStringMatches [("k", VSlice [VMap [("a", VMap [])]])]
       [("k", VSlice [VMap [("a", VMap [])]])] false = Panic
  /\ (forall r,
        Runs false [("k", VSlice [VMap [("a", VMap [])]])]
          [("k", VSlice [VMap [("a", VMap [])]])] r ->
        r <> Done true)
  /\ Permutation [VSlice [num 1]] [VSlice [num 1]]
  /\ jsonStringMatches [("k", VSlice [VSlice [num 1]])]
       [("k", VSlice [VSlice [num 1]])] false = Panic
  /\ (forall r,
        Runs false [("k", VSlice [VSlice [num 1]])]
          [("k", VSlice [VSlice [num 1]])] r ->
        r <> Done true).
Proof.
  assert (Hobject : jsonStringMatches [("k", VSlice [VMap [("a", VMap [])]])]
                      [("k", VSlice [VMap [("a", VMap [])]])] false = Panic)
    by (vm_compute; reflexivity).
  assert (Harray : jsonStringMatches [("k", VSlice [VSlice [num 1]])]
                     [("k", VSlice [VSlice [num 1]])] false = Panic)
    by (vm_compute; reflexivity).
  split; [apply Permutation_refl|].
  split; [exact Hobject|].
  split; [intros r; apply Runs_never_true; rewrite Hobject; discriminate|].
  split; [apply Permutation_refl|].
  split; [exact Harray|].
  intros r. apply Runs_never_true. rewrite Harray. discriminate.
Qed.

(** ** C8: strict equality implies a loose match *)

(** C8. For every pattern and target, if the comparator returns [true] in
    strict mode it returns [true] in loose mode, in every order of [range];
    so [Equals] returning [true] implies [Matches] returning [true],
    whatever the decoder. *)
Theorem strict_implies_loose (jsonMap otherJsonMap : gomap) :
  jsonStringMatches jsonMap otherJsonMap true = Done true ->
  jsonStringMatches jsonMap otherJsonMap false = Done true
  /\ (forall r, Runs false jsonMap otherJsonMap r -> r = Done true)
  /\ forall json_Unmarshal j other,
       decoded json_Unmarshal j = jsonMap ->
       decoded json_Unmarshal other = otherJsonMap ->
       Equals json_Unmarshal j other = Done true
       /\ Matches json_Unmarshal j other = Done true.
Proof.
  intros Hstrict.
  pose proof (strict_true_loose_true (VMap jsonMap) otherJsonMap Hstrict)
    as Hloose.
  split; [exact Hloose|].
  split; [intros r; apply Runs_true_all, Hloose|].
  intros json_Unmarshal j other Hj Hother. unfold Equals, Matches.
  rewrite Hj, Hother. split; assumption.
Qed.

(** The pattern and target [{"tags": ["a", "b"]}] and [{"tags": ["b", "a"]}]. *)
Lemma strict_implies_loose_witness :
  jsonStringMatches [("tags", VSlice [VString "a"; VString "b"])]
    [("tags", VSlice [VString "b"; VString "a"])] true = Done true
  /\ jsonStringMatches [("tags", VSlice [VString "a"; VString "b"])]
       [("tags", VSlice [VString "b"; VString "a"])] false = Done true.
Proof.
  assert (Hstrict : jsonStringMatches
                      [("tags", VSlice [VString "a"; VString "b"])]
                      [("tags", VSlice [VString "b"; VString "a"])] true
                    = Done true) by (vm_compute; reflexivity).
  split; [exact Hstrict|].
  exact (proj1 (strict_implies_loose _ _ Hstrict)).
Defined.

(** ** C9: a pattern key that the target lacks *)

(** A field whose key the target lacks returns [false]. *)
Lemma fieldStep_missing (mustBeEqual : bool) (otherJsonMap : gomap)
  (key : string) (value : iface) :
  mapLookup key otherJsonMap = None ->
  fieldStep mustBeEqual otherJsonMap key value = Done false.
Proof. intros Hmissing. unfold fieldStep. rewrite Hmissing. reflexivity. Qed.

(** With a pattern key that the target lacks, the verdict is never [true]. *)
Lemma missing_key_never_true (mustBeEqual : bool) (jsonMap otherJsonMap : gomap)
  (key : string) (value : iface) :
  In (key, value) jsonMap ->
  mapLookup key otherJsonMap = None ->
  jsonStringMatches jsonMap otherJsonMap mustBeEqual <> Done true.
Proof.
  intros Hin Hmissing Htrue. rewrite jsonStringMatches_eq in Htrue.
  destruct (countGate mustBeEqual jsonMap otherJsonMap); [discriminate|].
  apply rangeMap_true in Htrue. rewrite Forall_forall in Htrue.
  specialize (Htrue _ Hin). cbn [fst snd] in Htrue.
  rewrite fieldStep_missing in Htrue by exact Hmissing. discriminate.
Qed.

(** With a pattern key that the target lacks, the verdict is [false] when
    the fields ranged before that key pass. *)
Lemma missing_key_false (mustBeEqual : bool) (pre post otherJsonMap : gomap)
  (key : string) (value : iface) :
  mapLookup key otherJsonMap = None ->
  rangeMap mustBeEqual otherJsonMap pre = Done true ->
  jsonStringMatches (pre ++ (key, value) :: post) otherJsonMap mustBeEqual
  = Done false.
Proof.
  intros Hmissing Hpre. rewrite jsonStringMatches_eq.
  destruct (countGate _ _ _); [reflexivity|].
  rewrite rangeMap_app, Hpre. cbn [bind rangeMap].
  rewrite fieldStep_missing by exact Hmissing. reflexivity.
Qed.

(** C9 (the code departs from it). The pattern [{"a": {}, "x": null}] has
    the key ["x"], which the targets [{"a": {}}] and [{"a": {}, "y": null}]
    lack.  When [range] visits ["a"] first, the comparator panics there, in
    loose mode on the first target and in strict mode on the second, before
    it looks at ["x"]; when [range] visits ["x"] first it returns [false].
    The scenario of the claim holds: [matches({"x": null}, {})] is
    [false]. *)
Theorem missing_field_panics :
  mapLookup "x" [("a", VMap [])] = None
  /\ jsonStringMatches [("a", VMap []); ("x", VNil)] [("a", VMap [])] false
     = Panic
  /\ Runs false [("a", VMap []); ("x", VNil)] [("a", VMap [])] Panic
  /\ Runs false [("a", VMap []); ("x", VNil)] [("a", VMap [])] (Done false)
  /\ mapLookup "x" [("a", VMap []); ("y", VNil)] = None
  /\ jsonStringMatches [("a", VMap []); ("x", VNil)]
       [("a", VMap []); ("y", VNil)] true
     = Panic
  /\ Runs true [("a", VMap []); ("x", VNil)] [("a", VMap []); ("y", VNil)] Panic
  /\ jsonStringMatches [("x", VNil)] [] false = Done false
  /\ Matches sampleUnmarshal (docField "x" "null") "{}" = Done false.
Proof.
  assert (Hloose : jsonStringMatches [("a", VMap []); ("x", VNil)]
                     [("a", VMap [])] false = Panic)
    by (vm_compute; reflexivity).
  assert (Hstrict : jsonStringMatches [("a", VMap []); ("x", VNil)]
                      [("a", VMap []); ("y", VNil)] true = Panic)
    by (vm_compute; reflexivity).
  repeat split; try (vm_compute; reflexivity).
  - rewrite <- Hloose. apply jsonStringMatches_runs.
  - apply Runs_Permutation with (jsonMap := [("x", VNil); ("a", VMap [])]);
      [apply perm_swap|].
    change (Done false) with
      (jsonStringMatches [("x", VNil); ("a", VMap [])] [("a", VMap [])] false).
    apply jsonStringMatches_runs.
  - rewrite <- Hstrict. apply jsonStringMatches_runs.
Qed.

(** ** C10: serialisation *)

(** C10. [MarshalJSON] never returns an error; for the empty [JsonString] it
    returns the two bytes of the text of the empty object, and for any other
    it returns the bytes of the wrapped string unchanged. *)
Theorem MarshalJSON_total (j : JsonString) :
  snd (MarshalJSON j) = None
  /\ ((j = "" /\ fst (MarshalJSON j) = [x7b; x7d])
      \/ (j <> "" /\ fst (MarshalJSON j) = bytesOf j)).
Proof.
  unfold MarshalJSON. destruct (j =? "") eqn:Hempty; split; try reflexivity.
  - left. apply String.eqb_eq in Hempty. split; [exact Hempty | reflexivity].
  - right. apply String.eqb_neq in Hempty. split; [exact Hempty | reflexivity].
Qed.
